(** * kyc: the Kython bytecode container writer (kyc.py)

    A shallow embedding of [src/main/resources/kyc.py] and the properties of
    its value encoder, container assembly, output naming and daemon loop.

    Python values are modelled as follows.
    - [int] is [Z] (arbitrary precision); [bool] is a separate constructor
      that nevertheless satisfies [isinstance(_, int)].
    - [bytes] is [list byte]; [str] is the list of its code points.
    - an exception is a value of [exn] and every fallible builtin returns a
      [result].
    - a [dict] is the list of its items in iteration (insertion) order.
    - a [float] is its IEEE-754 binary64 bit pattern.
    - the interpreter, the file system and the [compile] builtin are a
      [host]; every exception of the model is an [Exception] (no
      [KeyboardInterrupt] or [SystemExit]), [import struct] succeeds and a
      code object has all the attributes that are read from it.
    - the daemon is given the lines that [readline] returned, and its
      [print]s succeed: what reading and printing may raise is not modelled.
    - [_compile_object] is the encoder on a call stack that is never
      exhausted; [_compile_object_within] is the same encoder under the
      recursion limit of the interpreter. *)

From Stdlib Require Import ZArith Lia List String Ascii Bool DecimalString.
From coqutil Require Import Byte Word.LittleEndianList.
Import ListNotations.
Local Open Scope Z_scope.

(** ** Python builtins used by kyc.py *)

Module Py.

Definition bytes := list byte.
Definition str := list Z.

(** A bytes literal [b"..."] and a str literal ["..."] (ASCII only). *)
Definition B (s : string) : bytes := list_byte_of_string s.
Definition U (s : string) : str :=
  List.map (fun b => byte.unsigned b) (list_byte_of_string s).

Inductive exn_kind :=
| OverflowError
| ValueError
| IndexError
| UnicodeEncodeError
| SyntaxError
| OSError
| RecursionError
| OtherException (name : str).

(** An exception: its class and [str(e)]. *)
Record exn := Exn { exn_class : exn_kind; exn_str : str }.

Inductive result (A : Type) :=
| Ok (a : A)
| Raise (e : exn).
Arguments Ok {A} a.
Arguments Raise {A} e.

Definition bind {A B} (m : result A) (k : A -> result B) : result B :=
  match m with
  | Ok a => k a
  | Raise e => Raise e
  end.

Notation "x <- m ;; k" := (bind m (fun x => k))
  (at level 61, m at next level, right associativity).

Definition mapM {A B} (f : A -> result B) : list A -> result (list B) :=
  fix go (l : list A) : result (list B) :=
    match l with
    | [] => Ok []
    | x :: l' => y <- f x ;; ys <- go l' ;; Ok (y :: ys)
    end.

Definition len {A} (l : list A) : Z := Z.of_nat (List.length l).

(** [n.to_bytes(length=k, byteorder="little", signed=False)] *)
Definition to_bytes (k : nat) (n : Z) : result bytes :=
  if n <? 0 then
    Raise (Exn OverflowError (U "can't convert negative int to unsigned"))
  else if n <? 2 ^ (8 * Z.of_nat k) then Ok (le_split k n)
  else Raise (Exn OverflowError (U "int too big to convert")).

(** [n.to_bytes(length=k, byteorder="little", signed=True)] *)
Definition to_bytes_signed (k : nat) (n : Z) : result bytes :=
  if (- 2 ^ (8 * Z.of_nat k - 1) <=? n) && (n <? 2 ^ (8 * Z.of_nat k - 1))
  then Ok (le_split k n)
  else Raise (Exn OverflowError (U "int too big to convert")).

(** [int.from_bytes(bs, byteorder="little", signed=True)]: the reader's side
    of [to_bytes_signed]. *)
Definition from_bytes_signed (bs : bytes) : Z :=
  let u := le_combine bs in
  match bs with
  | [] => 0
  | _ :: _ => if u <? 2 ^ (8 * len bs - 1) then u else u - 2 ^ (8 * len bs)
  end.

(** [int.from_bytes(bs, byteorder="little")] *)
Definition from_bytes (bs : bytes) : Z := le_combine bs.

(** *** [str.encode("utf-8")] *)

Definition is_surrogate (c : Z) : bool := (55296 <=? c) && (c <=? 57343).

Definition cont (c : Z) : byte := byte.of_Z (Z.lor 128 (Z.land c 63)).

Definition utf8_char (c : Z) : bytes :=
  if c <? 128 then [byte.of_Z c]
  else if c <? 2048 then
    [byte.of_Z (Z.lor 192 (Z.shiftr c 6)); cont c]
  else if c <? 65536 then
    [byte.of_Z (Z.lor 224 (Z.shiftr c 12)); cont (Z.shiftr c 6); cont c]
  else
    [byte.of_Z (Z.lor 240 (Z.shiftr c 18)); cont (Z.shiftr c 12);
     cont (Z.shiftr c 6); cont c].

Definition str_of_nat (n : nat) : str :=
  U (NilZero.string_of_uint (Nat.to_uint n)).

Definition str_of_int (n : Z) : str :=
  U (NilZero.string_of_int (Z.to_int n)).

Definition hex_digit (d : Z) : Z :=
  if d <? 10 then 48 + d else 87 + d.

(** The four lower-case hexadecimal digits of a code point below 2^16. *)
Definition hex4 (c : Z) : str :=
  [hex_digit (Z.land (Z.shiftr c 12) 15); hex_digit (Z.land (Z.shiftr c 8) 15);
   hex_digit (Z.land (Z.shiftr c 4) 15); hex_digit (Z.land c 15)].

Fixpoint surrogate_run (s : str) : nat :=
  match s with
  | c :: s' => if is_surrogate c then S (surrogate_run s') else O
  | [] => O
  end.

(** [str(e)] of the [UnicodeEncodeError] raised at position [pos], where the
    rest of the string [s] starts with a surrogate. *)
Definition surrogate_error (pos : nat) (s : str) : exn :=
  Exn UnicodeEncodeError
    (match surrogate_run s with
     | 1%nat =>
         U "'utf-8' codec can't encode character '\u" ++
         hex4 (List.hd 0 s) ++ U "' in position " ++
         str_of_nat pos ++ U ": surrogates not allowed"
     | n =>
         U "'utf-8' codec can't encode characters in position " ++
         str_of_nat pos ++ U "-" ++ str_of_nat (pos + n - 1) ++
         U ": surrogates not allowed"
     end).

Fixpoint encode_from (pos : nat) (s : str) : result bytes :=
  match s with
  | [] => Ok []
  | c :: s' =>
      if is_surrogate c then Raise (surrogate_error pos s)
      else bs <- encode_from (S pos) s' ;; Ok (utf8_char c ++ bs)
  end.

Definition encode_utf8 (s : str) : result bytes := encode_from 0 s.

(** *** [bytes.hex()] *)

Definition hex_byte (b : byte) : str :=
  [hex_digit (Z.shiftr (byte.unsigned b) 4);
   hex_digit (Z.land (byte.unsigned b) 15)].

Definition hex (bs : bytes) : str := List.flat_map hex_byte bs.

(** *** [str.split(sep)], [str.split()] and [sep.join(parts)] *)

Fixpoint startswith (s p : str) {struct p} : bool :=
  match p, s with
  | [], _ => true
  | _ :: _, [] => false
  | a :: p', b :: s' => (a =? b) && startswith s' p'
  end.

(** Left-to-right scan of [s]: [k] counts the characters of a separator just
    matched that are still to be consumed, [cur] is the current piece,
    reversed. *)
Fixpoint split_from (sep : str) (k : nat) (cur : str) (s : str) : list str :=
  match s with
  | [] => [List.rev cur]
  | c :: s' =>
      match k with
      | S k' => split_from sep k' cur s'
      | O =>
          if startswith s sep
          then List.rev cur :: split_from sep (List.length sep - 1) [] s'
          else split_from sep O (c :: cur) s'
      end
  end.

Definition split (s sep : str) : result (list str) :=
  match sep with
  | [] => Raise (Exn ValueError (U "empty separator"))
  | _ :: _ => Ok (split_from sep O [] s)
  end.

(** [sub in s] *)
Fixpoint contains (s sub : str) : bool :=
  startswith s sub ||
  match s with
  | [] => false
  | _ :: s' => contains s' sub
  end.

(** [s.endswith(suffix)] and [s.removesuffix(suffix)] *)
Definition endswith (s suffix : str) : bool :=
  startswith (List.rev s) (List.rev suffix).

Definition removesuffix (s suffix : str) : str :=
  if endswith s suffix
  then List.firstn (List.length s - List.length suffix) s
  else s.

(** A string is unbordered when none of its proper non-empty prefixes is
    also a suffix of it: two occurrences of it never overlap. *)
Definition unbordered (sep : str) : bool :=
  List.forallb
    (fun k =>
       if List.list_eq_dec Z.eq_dec (List.firstn k sep)
            (List.skipn (List.length sep - k) sep)
       then false else true)
    (List.seq 1 (List.length sep - 1)).

Fixpoint join (sep : str) (parts : list str) : str :=
  match parts with
  | [] => []
  | [p] => p
  | p :: parts' => p ++ sep ++ join sep parts'
  end.

(** [str.isspace] on one code point. *)
Definition isspace (c : Z) : bool :=
  ((9 <=? c) && (c <=? 13)) || ((28 <=? c) && (c <=? 32)) ||
  (c =? 133) || (c =? 160) || (c =? 5760) ||
  ((8192 <=? c) && (c <=? 8202)) || (c =? 8232) || (c =? 8233) ||
  (c =? 8239) || (c =? 8287) || (c =? 12288).

Definition flush (cur : str) (acc : list str) : list str :=
  match cur with
  | [] => acc
  | _ :: _ => List.rev cur :: acc
  end.

(** [s.split()]: the maximal runs of non-whitespace characters. *)
Fixpoint split_ws_from (cur : str) (s : str) : list str :=
  match s with
  | [] => flush cur []
  | c :: s' =>
      if isspace c then flush cur (split_ws_from [] s')
      else split_ws_from (c :: cur) s'
  end.

Definition split_ws (s : str) : list str := split_ws_from [] s.

(** [l[-1]] and [l[:-1]] *)
Definition last_item {A} (l : list A) : result A :=
  match List.rev l with
  | [] => Raise (Exn IndexError (U "list index out of range"))
  | x :: _ => Ok x
  end.

Definition but_last {A} (l : list A) : list A := List.removelast l.

(** [l[0]] *)
Definition first_item {A} (l : list A) : result A :=
  match l with
  | [] => Raise (Exn IndexError (U "list index out of range"))
  | x :: _ => Ok x
  end.

End Py.

(** ** The encoder *)

Module Kyc.
Import Py.

(** [types.CodeType], with the attributes [_compile_code_object] reads. *)
Record CodeType (V : Type) := {
  co_argcount : Z;
  co_posonlyargcount : Z;
  co_kwonlyargcount : Z;
  co_nlocals : Z;
  co_stacksize : Z;
  co_flags : Z;
  co_code : bytes;
  co_consts : list V;
  co_names : list V;
  co_varnames : list V;
  co_freevars : list V;
  co_cellvars : list V;
  co_filename : str;
  co_name : str;
  co_firstlineno : Z;
  co_lnotab : bytes
}.
Arguments co_argcount {V} _.
Arguments co_posonlyargcount {V} _.
Arguments co_kwonlyargcount {V} _.
Arguments co_nlocals {V} _.
Arguments co_stacksize {V} _.
Arguments co_flags {V} _.
Arguments co_code {V} _.
Arguments co_consts {V} _.
Arguments co_names {V} _.
Arguments co_varnames {V} _.
Arguments co_freevars {V} _.
Arguments co_cellvars {V} _.
Arguments co_filename {V} _.
Arguments co_name {V} _.
Arguments co_firstlineno {V} _.
Arguments co_lnotab {V} _.

(** The objects [_compile_object] can be handed.  [VOther cls] is an object
    of a class [cls] that passes none of the tests of [_compile_object]
    (a [complex], a [frozenset], [Ellipsis], ...). *)
#[local] Unset Elimination Schemes.
Inductive value :=
| VInt (n : Z)
| VBool (b : bool)
| VBytes (s : bytes)
| VStr (s : str)
| VTuple (t : list value)
| VList (t : list value)
| VDict (items : list (value * value))
| VNone
| VFloat (bits : Z)
| VCode (obb : CodeType value)
| VOther (cls : str).
#[local] Set Elimination Schemes.

Definition code := CodeType value.

(** [int(v)] for a [bool]: [False] is 0 and [True] is 1. *)
Definition int_of_bool (v : bool) : Z := if v then 1 else 0.

Definition CODE_COMMENT : str :=
  U "This is an internal file generated by Kython. Do not edit!".

Definition _compile_int (i : Z) : result bytes :=
  b <- to_bytes_signed 4 i ;; Ok (B "i" ++ b).

Definition _compile_bytestring (s : bytes) : result bytes :=
  size <- to_bytes 4 (len s) ;; Ok (B "b" ++ size ++ s).

Definition _compile_unicode_string (s : str) : result bytes :=
  encoded <- encode_utf8 s ;;
  size <- to_bytes 4 (len encoded) ;;
  Ok (B "s" ++ size ++ encoded).

Definition _compile_nonetype : bytes := B "N".

Definition _compile_bool (v : bool) : bytes :=
  List.nth (Z.to_nat (int_of_bool v)) [B "-"; B "+"] [].

(** [struct.pack("<d", v)] writes the eight bytes of the binary64 pattern. *)
Definition _compile_float (bits : Z) : bytes := B "f" ++ le_split 8 bits.

(** The composite encoders, open in the recursive call [rec] to
    [_compile_object]. *)
Section Composite.
Variable rec : value -> result bytes.

Definition compile_tuple_with (t : list value) : result bytes :=
  size <- to_bytes 4 (len t) ;;
  items <- mapM rec t ;;
  Ok (B "t" ++ size ++ List.concat items).

Definition compile_list_with (t : list value) : result bytes :=
  size <- to_bytes 4 (len t) ;;
  items <- mapM rec t ;;
  Ok (B "l" ++ size ++ List.concat items).

Definition compile_item_with (kv : value * value) : result bytes :=
  k <- rec (fst kv) ;; v <- rec (snd kv) ;; Ok (k ++ v).

Definition compile_dict_with (t : list (value * value)) : result bytes :=
  size <- to_bytes 4 (len t) ;;
  items <- mapM compile_item_with t ;;
  Ok (B "d" ++ size ++ List.concat items).

Definition compile_code_object_with (obb : code) : result bytes :=
  f1 <- _compile_int (co_argcount obb) ;;
  f2 <- _compile_int (co_posonlyargcount obb) ;;
  f3 <- _compile_int (co_kwonlyargcount obb) ;;
  f4 <- _compile_int (co_nlocals obb) ;;
  f5 <- _compile_int (co_stacksize obb) ;;
  f6 <- _compile_int (co_flags obb) ;;
  f7 <- _compile_bytestring (co_code obb) ;;
  f8 <- compile_tuple_with (co_consts obb) ;;
  f9 <- compile_tuple_with (co_names obb) ;;
  f10 <- compile_tuple_with (co_varnames obb) ;;
  f11 <- compile_tuple_with (co_freevars obb) ;;
  f12 <- compile_tuple_with (co_cellvars obb) ;;
  f13 <- _compile_unicode_string (co_filename obb) ;;
  f14 <- _compile_unicode_string (co_name obb) ;;
  f15 <- _compile_int (co_firstlineno obb) ;;
  f16 <- _compile_bytestring (co_lnotab obb) ;;
  Ok (B "c" ++ List.concat
        [f1; f2; f3; f4; f5; f6; f7; f8; f9; f10; f11; f12; f13; f14; f15;
         f16]).
End Composite.

(** The branches are those of the source, in its order of tests.  A [bool]
    passes the first test, [isinstance(i, int)], so it takes the [int] branch
    and never reaches the [isinstance(i, bool)] branch further down. *)
Fixpoint _compile_object (i : value) : result bytes :=
  match i with
  | VInt n => _compile_int n
  | VBool v => _compile_int (int_of_bool v)
  | VBytes s => _compile_bytestring s
  | VStr s => _compile_unicode_string s
  | VTuple t => compile_tuple_with _compile_object t
  | VList t => compile_list_with _compile_object t
  | VDict t => compile_dict_with _compile_object t
  | VFloat v => Ok (_compile_float v)
  | VCode obb => compile_code_object_with _compile_object obb
  | VNone => Ok _compile_nonetype
  | VOther cls =>
      Raise (Exn ValueError (U "Unknown type <class '" ++ cls ++ U "'>"))
  end.

Definition _compile_tuple := compile_tuple_with _compile_object.
Definition _compile_list := compile_list_with _compile_object.
Definition _compile_dict := compile_dict_with _compile_object.
Definition _compile_code_object := compile_code_object_with _compile_object.

(** *** The encoder under the recursion limit *)

(** [_compile_object] above is the encoder on a call stack that is never
    exhausted.  The interpreter allows a bounded number of nested calls of
    Python functions; the definitions below are the same functions with the
    number [frames] of calls still allowed. *)








Section CompositeWithin.
Variable rec : nat -> value -> result bytes.




End CompositeWithin.


(** The number of frames that the encoding of an object takes when nothing
    fails: one for [_compile_object], one for the encoder of the kind, and
    for a container what its deepest element takes; in a code object the
    five tuples are encoded by [_compile_tuple], one frame below
    [_compile_code_object]. *)
Fixpoint stack_need (v : value) : nat :=
  match v with
  | VTuple t | VList t => 2 + List.list_max (List.map stack_need t)
  | VDict t =>
      2 + List.list_max
            (List.map
               (fun kv => Nat.max (stack_need (fst kv)) (stack_need (snd kv)))
               t)
  | VCode obb =>
      3 + Nat.max (List.list_max (List.map stack_need (co_consts obb)))
            (Nat.max (List.list_max (List.map stack_need (co_names obb)))
               (Nat.max
                  (List.list_max (List.map stack_need (co_varnames obb)))
                  (Nat.max
                     (List.list_max (List.map stack_need (co_freevars obb)))
                     (List.list_max
                        (List.map stack_need (co_cellvars obb))))))
  | VOther _ => 1
  | _ => 2
  end.

(** [depth] lists, one inside the other, around [None]. *)
Fixpoint nested (depth : nat) : value :=
  match depth with
  | O => VNone
  | S d => VList [nested d]
  end.

(** *** What the encoder accepts *)

(** The number that the encoder of a sized value writes to its length field:
    the byte length of a [bytes], the length of the UTF-8 encoding of a
    [str], the number of elements of a [tuple] or [list] and of items of a
    [dict]. *)
Definition length_field (v : value) : option Z :=
  match v with
  | VBytes s => Some (len s)
  | VStr s =>
      match encode_utf8 s with
      | Ok encoded => Some (len encoded)
      | Raise _ => None
      end
  | VTuple t | VList t => Some (len t)
  | VDict t => Some (len t)
  | _ => None
  end.

Definition int32 (n : Z) : bool := (- 2 ^ 31 <=? n) && (n <? 2 ^ 31).

Definition short {A} (l : list A) : bool := len l <? 2 ^ 32.

Definition text_ok (s : str) : bool :=
  List.forallb (fun c => negb (is_surrogate c)) s &&
  short (List.flat_map utf8_char s).

(** The values on which [_compile_object] returns bytes. *)
Fixpoint encodable (v : value) : bool :=
  match v with
  | VInt n => int32 n
  | VBool _ => true
  | VBytes s => short s
  | VStr s => text_ok s
  | VTuple t | VList t => short t && List.forallb encodable t
  | VDict t =>
      short t &&
      List.forallb (fun kv => encodable (fst kv) && encodable (snd kv)) t
  | VNone => true
  | VFloat _ => true
  | VCode obb =>
      int32 (co_argcount obb) && int32 (co_posonlyargcount obb) &&
      int32 (co_kwonlyargcount obb) && int32 (co_nlocals obb) &&
      int32 (co_stacksize obb) && int32 (co_flags obb) &&
      short (co_code obb) &&
      (short (co_consts obb) && List.forallb encodable (co_consts obb)) &&
      (short (co_names obb) && List.forallb encodable (co_names obb)) &&
      (short (co_varnames obb) && List.forallb encodable (co_varnames obb)) &&
      (short (co_freevars obb) && List.forallb encodable (co_freevars obb)) &&
      (short (co_cellvars obb) && List.forallb encodable (co_cellvars obb)) &&
      text_ok (co_filename obb) && text_ok (co_name obb) &&
      int32 (co_firstlineno obb) && short (co_lnotab obb)
  | VOther _ => false
  end.

(** The closed union of the data model: an object built from the ten kinds
    alone, its integers in the signed 32-bit range; byte strings, texts and
    sequences of any length. *)
Fixpoint in_union (v : value) : bool :=
  match v with
  | VInt n => int32 n
  | VBool _ | VBytes _ | VStr _ | VNone | VFloat _ => true
  | VTuple t | VList t => List.forallb in_union t
  | VDict t =>
      List.forallb (fun kv => in_union (fst kv) && in_union (snd kv)) t
  | VCode obb =>
      int32 (co_argcount obb) && int32 (co_posonlyargcount obb) &&
      int32 (co_kwonlyargcount obb) && int32 (co_nlocals obb) &&
      int32 (co_stacksize obb) && int32 (co_flags obb) &&
      List.forallb in_union (co_consts obb) &&
      List.forallb in_union (co_names obb) &&
      List.forallb in_union (co_varnames obb) &&
      List.forallb in_union (co_freevars obb) &&
      List.forallb in_union (co_cellvars obb) &&
      int32 (co_firstlineno obb)
  | VOther _ => false
  end.

(** A byte string of 2^32 zero bytes. *)
Definition four_gib : bytes := List.repeat Byte.x00 (Z.to_nat (2 ^ 32)).

Definition is_ok {A} (m : result A) : bool :=
  match m with
  | Ok _ => true
  | Raise _ => false
  end.

(** The encoding of one item of a [dict]: its key directly followed by its
    value. *)
Definition item_encoding (kv : value * value) (e : bytes) : Prop :=
  exists k v,
    _compile_object (fst kv) = Ok k /\ _compile_object (snd kv) = Ok v /\
    e = k ++ v.

(** *** The host: interpreter, file system and the [compile] builtin *)

Record host := {
  (** whether [sys.getwindowsversion] exists *)
  windows : bool;
  (** [sys.version_info[0]], [[1]], [[2]] and [.releaselevel] *)
  version_major : Z;
  version_minor : Z;
  version_micro : Z;
  releaselevel : str;
  (** [sys.implementation.name] *)
  implementation_name : str;
  (** the state of the file system *)
  files : Type;
  (** [open(path, "r")] followed by [read()] *)
  read_text : files -> str -> result str;
  (** [open(path, "wb")] followed by [write(b)] *)
  write_bytes : files -> str -> bytes -> result unit * files;
  (** the builtin [compile(source, filename, "exec")] *)
  compile : str -> str -> result code
}.

Section WithHost.
Variable h : host.

Definition path_sep : str :=
  if windows h then U "\" else U "/".

Definition header_zeros : bytes := List.repeat Byte.x00 8.

(** The path of the file [name] in the directory [dir]; an empty [dir]
    stands for a bare file name, looked up in the working directory. *)
Definition in_directory (dir name : str) : str :=
  match dir with
  | [] => name
  | _ :: _ => dir ++ path_sep ++ name
  end.

Definition directory_or_dot (dir : str) : str :=
  match dir with
  | [] => U "."
  | _ :: _ => dir
  end.

(** The file name and the directory part that [compile_kyc] takes from a
    path: [path.split(path_sep)[-1]] and
    [path_sep.join(path.split(path_sep)[:-1])].  The directory part is
    empty for a bare file name and for a file directly under the root. *)
Definition basename (path : str) : str :=
  match split path path_sep with
  | Ok parts =>
      match last_item parts with
      | Ok last => last
      | Raise _ => []
      end
  | Raise _ => []
  end.

Definition dirname (path : str) : str :=
  match split path path_sep with
  | Ok parts => join path_sep (but_last parts)
  | Raise _ => []
  end.

(** The pure part of [compile_kyc]: the path written to and the bytes
    written, in the order in which the source evaluates them. *)
Definition compile_kyc_pure (path ending : str) (full_pathname : bool)
    (fs : files h) : result (str * bytes) :=
  parts <- split path path_sep ;;
  last <- last_item parts ;;
  let first := join path_sep (but_last parts) in
  let first := match first with [] => U "." | _ :: _ => first end in
  pieces <- split last ending ;;
  let filename := join ending (but_last pieces) in
  let kyc_name := filename ++ U ".kyc" in
  file_data <- read_text h fs path ;;
  let compiled_filename := if full_pathname then path else last in
  compiled <- compile h file_data compiled_filename ;;
  code_object <- _compile_code_object compiled ;;
  version <- to_bytes 1 (version_minor h) ;;
  comment <- _compile_unicode_string CODE_COMMENT ;;
  let b :=
    List.concat
      [B "KYCA"; version; B "K"; B "L"; header_zeros; comment; code_object]
  in
  Ok (first ++ path_sep ++ kyc_name, b).

Definition compile_kyc (path ending : str) (full_pathname : bool)
    (fs : files h) : result bytes * files h :=
  match compile_kyc_pure path ending full_pathname fs with
  | Raise e => (Raise e, fs)
  | Ok (target, b) =>
      match write_bytes h fs target b with
      | (Ok _, fs') => (Ok b, fs')
      | (Raise e, fs') => (Raise e, fs')
      end
  end.

Definition str_eqb (a b : str) : bool :=
  if List.list_eq_dec Z.eq_dec a b then true else false.

(** What [command, *args = data.split()] raises on an empty list. *)
Definition unpack_error : exn :=
  Exn ValueError
    (U "not enough values to unpack (expected at least 1, got 0)").

(** One turn of the [while True] loop of [daemonise], given the result
    [data] of [sys.stdin.readline()]: the line printed, or the exception
    that leaves the loop.  Every exception of the model is an [Exception],
    so the second [except] clause catches all that [compile_kyc(args[0])]
    raises, the [IndexError] of [args[0]] included. *)
Definition loop_body (data : str) (fs : files h) : result str * files h :=
  match split_ws data with
  | [] => (Raise unpack_error, fs)
  | command :: args =>
      if str_eqb command (U "c") then
        let '(r, fs') :=
          match first_item args with
          | Ok path => compile_kyc path (U ".py") false fs
          | Raise e => (Raise e, fs)
          end in
        match r with
        | Ok compiled => (Ok (U "C " ++ hex compiled), fs')
        | Raise e =>
            (msg <- encode_utf8 (exn_str e) ;; Ok (U "e " ++ hex msg), fs')
        end
      else (Ok (U "u"), fs)
  end.

(** The loop on the lines read so far: the lines printed, the exception
    that ended the loop if one did ([None]: blocked in [readline]), and the
    file system.  End of input is a read of the empty string. *)
Fixpoint loop (stdin : list str) (fs : files h)
    : list str * option exn * files h :=
  match stdin with
  | [] => ([], None, fs)
  | data :: rest =>
      match loop_body data fs with
      | (Raise e, fs') => ([], Some e, fs')
      | (Ok line, fs') =>
          let '(out, e, fs'') := loop rest fs' in (line :: out, e, fs'')
      end
  end.

Definition ver_string : str :=
  str_of_int (version_major h) ++ U "." ++ str_of_int (version_minor h) ++
  U "." ++ str_of_int (version_micro h) ++ U "-" ++ releaselevel h.

Definition send_info : str :=
  U "i py-kyc " ++ ver_string ++ U " " ++ implementation_name h.

Definition daemonise (stdin : list str) (fs : files h)
    : list str * option exn * files h :=
  let '(out, e, fs') := loop stdin fs in
  (send_info :: U "# kyc will be compiled with version 1" :: U "r" :: out,
   e, fs').
End WithHost.

(** *** A small host to run the model on *)

(** A code object for a module with an empty body. *)
Definition empty_module (filename : str) : code := {|
  co_argcount := 0; co_posonlyargcount := 0; co_kwonlyargcount := 0;
  co_nlocals := 0; co_stacksize := 1; co_flags := 64;
  co_code := B "d"; co_consts := [VNone]; co_names := [];
  co_varnames := []; co_freevars := []; co_cellvars := [];
  co_filename := filename; co_name := U "<module>";
  co_firstlineno := 1; co_lnotab := []
|}.

Fixpoint lookup (fs : list (str * bytes)) (path : str) : option bytes :=
  match fs with
  | [] => None
  | (p, b) :: fs' =>
      if List.list_eq_dec Z.eq_dec p path then Some b else lookup fs' path
  end.

(** CPython 3.8 on a POSIX system; files are an association list, the most
    recent write first; every file that exists reads as the empty text and
    compiles to [empty_module]. *)
Definition toy : host := {|
  windows := false;
  version_major := 3; version_minor := 8; version_micro := 0;
  releaselevel := U "final";
  implementation_name := U "cpython";
  files := list (str * bytes);
  read_text := fun fs path =>
    match lookup fs path with
    | Some _ => Ok []
    | None =>
        Raise (Exn OSError (U "[Errno 2] No such file or directory"))
    end;
  write_bytes := fun fs path b => (Ok tt, (path, b) :: fs);
  compile := fun _ filename => Ok (empty_module filename)
|}.

(** The host [toy] with another [compile] builtin. *)
Definition toy_compiling (f : str -> str -> result code) : host := {|
  windows := windows toy;
  version_major := version_major toy;
  version_minor := version_minor toy;
  version_micro := version_micro toy;
  releaselevel := releaselevel toy;
  implementation_name := implementation_name toy;
  files := files toy;
  read_text := read_text toy;
  write_bytes := write_bytes toy;
  compile := f
|}.

(** A host whose [compile] rejects every source. *)
Definition rejecting : host :=
  toy_compiling
    (fun _ filename =>
       Raise (Exn SyntaxError
                (U "invalid syntax (" ++ filename ++ U ", line 1)"))).

(** A module whose only constant is the integer 2^40. *)
Definition big_constant (filename : str) : code := {|
  co_argcount := 0; co_posonlyargcount := 0; co_kwonlyargcount := 0;
  co_nlocals := 0; co_stacksize := 1; co_flags := 64;
  co_code := B "d"; co_consts := [VInt (2 ^ 40); VNone]; co_names := [];
  co_varnames := []; co_freevars := []; co_cellvars := [];
  co_filename := filename; co_name := U "<module>";
  co_firstlineno := 1; co_lnotab := []
|}.

(** A host whose [compile] raises an exception with a lone surrogate in its
    message. *)
Definition garbling : host :=
  toy_compiling
    (fun _ _ => Raise (Exn SyntaxError (U "(unicode error) " ++ [56575]))).

(** The file system in which [dir/foo.py] exists, and one request for it. *)
Definition toy_files : files toy := [(U "dir/foo.py", [])].

Definition newline : str := [10].

(** *** Views of the encoder used to state its properties *)

(** The sixteen attributes of a code object, as the values that
    [_compile_code_object] encodes, in its order. *)
Definition code_fields (obb : code) : list value :=
  [VInt (co_argcount obb); VInt (co_posonlyargcount obb);
   VInt (co_kwonlyargcount obb); VInt (co_nlocals obb);
   VInt (co_stacksize obb); VInt (co_flags obb);
   VBytes (co_code obb); VTuple (co_consts obb); VTuple (co_names obb);
   VTuple (co_varnames obb); VTuple (co_freevars obb);
   VTuple (co_cellvars obb); VStr (co_filename obb); VStr (co_name obb);
   VInt (co_firstlineno obb); VBytes (co_lnotab obb)].

(** The first byte of the encoding of each kind of object. *)
Definition tag (v : value) : option byte :=
  match v with
  | VInt _ | VBool _ => Some Byte.x69
  | VBytes _ => Some Byte.x62
  | VStr _ => Some Byte.x73
  | VTuple _ => Some Byte.x74
  | VList _ => Some Byte.x6c
  | VDict _ => Some Byte.x64
  | VNone => Some Byte.x4e
  | VFloat _ => Some Byte.x66
  | VCode _ => Some Byte.x63
  | VOther _ => None
  end.

(** The keys and values of a dict in the order in which they are encoded. *)
Definition flatten_items (t : list (value * value)) : list value :=
  List.flat_map (fun kv => [fst kv; snd kv]) t.

(** The encoding of [v1], followed by anything, is never the encoding of
    another object followed by something else, unless the two encodings are
    the same. *)
Definition delimited (v1 : value) : Prop :=
  forall b1 v2 b2 r1 r2,
    _compile_object v1 = Ok b1 -> _compile_object v2 = Ok b2 ->
    b1 ++ r1 = b2 ++ r2 -> b1 = b2 /\ r1 = r2.

Definition is_hex_digit (c : Z) : bool :=
  ((48 <=? c) && (c <=? 57)) || ((97 <=? c) && (c <=? 102)).

(** *** The entry points *)

Section EntryPoints.
Variable h : host.

(** [main(daemon)], given [sys.argv] and the lines read from the standard
    input: the lines printed, the exception that ended the run if any, and
    the file system. *)
Definition main (daemon : bool) (argv : list str) (stdin : list str)
    (fs : files h) : list str * option exn * files h :=
  if daemon then daemonise h stdin fs
  else
    match List.nth_error argv 1 with
    | None =>
        ([], Some (Exn IndexError (U "list index out of range")), fs)
    | Some filename =>
        match compile_kyc h filename (U ".py") false fs with
        | (Ok output, fs') => ([hex output], None, fs')
        | (Raise e, fs') => ([], Some e, fs')
        end
    end.

(** The [if __name__ == "__main__"] block. *)
Definition script (argv : list str) (stdin : list str) (fs : files h)
    : list str * option exn * files h :=
  match List.nth_error argv 1 with
  | None => ([], Some (Exn IndexError (U "list index out of range")), fs)
  | Some arg =>
      if str_eqb arg (U "--daemon") then main true argv stdin fs
      else main false argv stdin fs
  end.
End EntryPoints.

End Kyc.

(** ** Properties *)

Module KycFacts.
Import Py Kyc.

(** *** Integers *)

Lemma to_bytes_signed_in_range (n : Z) :
  - 2 ^ 31 <= n < 2 ^ 31 -> to_bytes_signed 4 n = Ok (le_split 4 n).
Proof.
  intros Hn. unfold to_bytes_signed.
  change (2 ^ (8 * Z.of_nat 4 - 1)) with (2 ^ 31).
  destruct (Z.leb_spec (- 2 ^ 31) n); [|lia].
  destruct (Z.ltb_spec n (2 ^ 31)); [reflexivity|lia].
Qed.

Lemma to_bytes_signed_out_of_range (n : Z) :
  n < - 2 ^ 31 \/ 2 ^ 31 <= n ->
  to_bytes_signed 4 n = Raise (Exn OverflowError (U "int too big to convert")).
Proof.
  intros Hn. unfold to_bytes_signed.
  change (2 ^ (8 * Z.of_nat 4 - 1)) with (2 ^ 31).
  destruct (Z.leb_spec (- 2 ^ 31) n); destruct (Z.ltb_spec n (2 ^ 31));
    try reflexivity; lia.
Qed.

Lemma from_bytes_signed_le_split (n : Z) :
  - 2 ^ 31 <= n < 2 ^ 31 -> from_bytes_signed (le_split 4 n) = n.
Proof.
  intros Hn. unfold from_bytes_signed, len.
  rewrite length_le_split, le_combine_split.
  change (le_split 4 n) with
    (byte.of_Z n :: le_split 3 (Z.shiftr n 8)).
  cbv iota.
  change (2 ^ (Z.of_nat 4 * 8)) with 4294967296.
  change (2 ^ (8 * Z.of_nat 4 - 1)) with 2147483648.
  change (2 ^ (8 * Z.of_nat 4)) with 4294967296.
  change (2 ^ 31) with 2147483648 in Hn.
  destruct (Z.ltb_spec (n mod 4294967296) 2147483648);
    Z.div_mod_to_equations; lia.
Qed.

(** C1.  A [bool] handed to [_compile_object] is encoded by the [int] branch,
    as the five bytes of the integer 0 or 1; the one-byte records ['-'] and
    ['+'] of [_compile_bool] are never produced. *)
Theorem compile_object_bool_takes_int_branch :
  _compile_object (VBool false) = Ok (B "i" ++ le_split 4 0) /\
  _compile_object (VBool true) = Ok (B "i" ++ le_split 4 1) /\
  _compile_bool false = B "-" /\
  _compile_bool true = B "+" /\
  (forall v, _compile_object (VBool v) <> Ok (_compile_bool v)) /\
  (forall v, _compile_object (VBool v) = _compile_object (VInt (int_of_bool v))).
Proof.
  repeat split; try reflexivity.
  intros [] E; discriminate E.
Qed.

(** C3.  An integer outside the signed 32-bit range is not encoded:
    [_compile_int], and [_compile_object] on it, raise [OverflowError], so no
    byte sequence, truncated or otherwise, is returned. *)
Theorem compile_int_overflow (n : Z) :
  n < - 2 ^ 31 \/ 2 ^ 31 - 1 < n ->
  _compile_int n = Raise (Exn OverflowError (U "int too big to convert")) /\
  _compile_object (VInt n) =
    Raise (Exn OverflowError (U "int too big to convert")) /\
  (forall bs, _compile_object (VInt n) <> Ok bs).
Proof.
  intros Hn.
  assert (E : _compile_int n =
              Raise (Exn OverflowError (U "int too big to convert"))).
  { unfold _compile_int. rewrite to_bytes_signed_out_of_range by lia.
    reflexivity. }
  repeat split; try exact E.
  intros bs. simpl. rewrite E. discriminate.
Qed.

Lemma compile_int_overflow_witness :
  _compile_int (2 ^ 31) =
    Raise (Exn OverflowError (U "int too big to convert")) /\
  _compile_object (VInt (2 ^ 31)) =
    Raise (Exn OverflowError (U "int too big to convert")) /\
  (forall bs, _compile_object (VInt (2 ^ 31)) <> Ok bs).
Proof. apply (compile_int_overflow (2 ^ 31)). right. lia. Defined.

(** C5.  An integer of the signed 32-bit range is encoded as five bytes: the
    tag ['i'], then the four bytes of its two's complement, least significant
    first; reading the four bytes back as a signed little-endian integer
    gives the integer. *)
Theorem compile_int_roundtrip (n : Z) :
  - 2 ^ 31 <= n <= 2 ^ 31 - 1 ->
  exists payload,
    _compile_object (VInt n) = Ok (B "i" ++ payload) /\
    _compile_int n = Ok (B "i" ++ payload) /\
    List.length (B "i" ++ payload) = 5%nat /\
    payload = le_split 4 n /\
    from_bytes payload = n mod 2 ^ 32 /\
    from_bytes_signed payload = n.
Proof.
  intros Hn. exists (le_split 4 n).
  assert (E : _compile_int n = Ok (B "i" ++ le_split 4 n)).
  { unfold _compile_int. rewrite to_bytes_signed_in_range by lia.
    reflexivity. }
  repeat split; try exact E.
  - unfold from_bytes. rewrite le_combine_split. reflexivity.
  - apply from_bytes_signed_le_split. lia.
Qed.

Lemma compile_int_roundtrip_witness :
  exists payload,
    _compile_object (VInt (-2)) = Ok (B "i" ++ payload) /\
    _compile_int (-2) = Ok (B "i" ++ payload) /\
    List.length (B "i" ++ payload) = 5%nat /\
    payload = le_split 4 (-2) /\
    from_bytes payload = (-2) mod 2 ^ 32 /\
    from_bytes_signed payload = -2.
Proof. apply (compile_int_roundtrip (-2)). lia. Defined.

(** *** Lists of results *)

Lemma mapM_Forall2 {A B} (f : A -> result B) (l : list A) (ys : list B) :
  mapM f l = Ok ys <-> List.Forall2 (fun x y => f x = Ok y) l ys.
Proof.
  revert ys. induction l as [|x l IH]; intros ys; simpl.
  - split.
    + intros E. inversion E. constructor.
    + intros F. inversion F. reflexivity.
  - split.
    + destruct (f x) as [y|e] eqn:Ex; simpl; [|discriminate].
      destruct (mapM f l) as [ys'|e] eqn:El; simpl; [|discriminate].
      intros E. inversion E; subst. constructor; [exact Ex|].
      apply IH. reflexivity.
    + intros F. inversion F as [|x' y l' ys' Ex Fl]; subst.
      rewrite Ex. simpl. apply IH in Fl. rewrite Fl. reflexivity.
Qed.

Lemma is_ok_true {A} (m : result A) : is_ok m = true <-> exists a, m = Ok a.
Proof.
  destruct m as [a|e]; simpl; split; intros H.
  - exists a. reflexivity.
  - reflexivity.
  - discriminate.
  - destruct H as [a H]. discriminate.
Qed.

Lemma is_ok_bind {A B} (m : result A) (k : A -> result B) (b : bool) :
  (forall a, is_ok (k a) = b) -> is_ok (bind m k) = is_ok m && b.
Proof. intros H. destruct m; simpl; auto. Qed.

Lemma is_ok_mapM {A B} (f : A -> result B) (l : list A) :
  is_ok (mapM f l) = List.forallb (fun x => is_ok (f x)) l.
Proof.
  induction l as [|x l IH]; simpl; [reflexivity|].
  destruct (f x); simpl; [|reflexivity].
  rewrite <- IH. destruct (mapM f l); reflexivity.
Qed.

(** *** Length fields *)

Lemma to_bytes_4_small (n : Z) :
  0 <= n < 2 ^ 32 -> to_bytes 4 n = Ok (le_split 4 n).
Proof.
  intros Hn. unfold to_bytes.
  change (2 ^ (8 * Z.of_nat 4)) with (2 ^ 32).
  destruct (Z.ltb_spec n 0); [lia|].
  destruct (Z.ltb_spec n (2 ^ 32)); [reflexivity|lia].
Qed.

Lemma to_bytes_4_big (n : Z) :
  2 ^ 32 <= n ->
  to_bytes 4 n = Raise (Exn OverflowError (U "int too big to convert")).
Proof.
  intros Hn. unfold to_bytes.
  change (2 ^ (8 * Z.of_nat 4)) with (2 ^ 32).
  destruct (Z.ltb_spec n 0); [lia|].
  destruct (Z.ltb_spec n (2 ^ 32)); [lia|reflexivity].
Qed.

Lemma len_nonneg {A} (l : list A) : 0 <= len l.
Proof. unfold len. lia. Qed.

Lemma is_ok_to_bytes_len {A} (l : list A) :
  is_ok (to_bytes 4 (len l)) = short l.
Proof.
  unfold short. pose proof (len_nonneg l).
  destruct (Z.ltb_spec (len l) (2 ^ 32)).
  - rewrite to_bytes_4_small by lia. reflexivity.
  - rewrite to_bytes_4_big by lia. reflexivity.
Qed.

Lemma from_bytes_length_field (n : Z) :
  0 <= n < 2 ^ 32 -> from_bytes (le_split 4 n) = n.
Proof.
  intros Hn. unfold from_bytes. rewrite le_combine_split.
  change (2 ^ (Z.of_nat 4 * 8)) with (2 ^ 32).
  apply Z.mod_small. exact Hn.
Qed.

Lemma oversized_raises (v : value) (n : Z) :
  length_field v = Some n ->
  2 ^ 32 <= n ->
  _compile_object v = Raise (Exn OverflowError (U "int too big to convert")).
Proof.
  intros Hf Hn.
  destruct v; simpl in Hf; try discriminate Hf.
  - inversion Hf; subst. simpl. unfold _compile_bytestring.
    rewrite to_bytes_4_big by exact Hn. reflexivity.
  - simpl. unfold _compile_unicode_string.
    destruct (encode_utf8 s) as [encoded|e]; [|discriminate Hf].
    inversion Hf; subst. simpl.
    rewrite to_bytes_4_big by exact Hn. reflexivity.
  - inversion Hf; subst. simpl. unfold compile_tuple_with.
    rewrite to_bytes_4_big by exact Hn. reflexivity.
  - inversion Hf; subst. simpl. unfold compile_list_with.
    rewrite to_bytes_4_big by exact Hn. reflexivity.
  - inversion Hf; subst. simpl. unfold compile_dict_with.
    rewrite to_bytes_4_big by exact Hn. reflexivity.
Qed.

Lemma len_four_gib : len four_gib = 2 ^ 32.
Proof.
  unfold len, four_gib. rewrite List.repeat_length.
  apply Z2Nat.id. apply Z.pow_nonneg. lia.
Qed.

Lemma four_gib_raises :
  _compile_object (VBytes four_gib) =
  Raise (Exn OverflowError (U "int too big to convert")).
Proof.
  apply (oversized_raises (VBytes four_gib) (2 ^ 32)).
  - unfold length_field. rewrite len_four_gib. reflexivity.
  - apply Z.le_refl.
Qed.

(** C10.  When the number to be written to a length field (the byte length
    of a byte string or of the UTF-8 encoding of a text, the element count of
    a tuple or list, the item count of a dict) is 2^32 or more, the encoder
    raises [OverflowError] and returns no bytes: the length is never reduced
    modulo 2^32. *)
Theorem compile_object_length_overflow (v : value) (n : Z) :
  length_field v = Some n ->
  2 ^ 32 <= n ->
  _compile_object v =
    Raise (Exn OverflowError (U "int too big to convert")) /\
  (forall bs, _compile_object v <> Ok bs).
Proof.
  intros Hf Hn. pose proof (oversized_raises v n Hf Hn) as E.
  split; [exact E|]. intros bs. rewrite E. discriminate.
Qed.

Lemma compile_object_length_overflow_witness :
  _compile_object (VBytes four_gib) =
    Raise (Exn OverflowError (U "int too big to convert")) /\
  (forall bs, _compile_object (VBytes four_gib) <> Ok bs).
Proof.
  apply (compile_object_length_overflow (VBytes four_gib) (2 ^ 32)).
  - unfold length_field. rewrite len_four_gib. reflexivity.
  - apply Z.le_refl.
Defined.

(** Whenever a sized value is encoded, the four bytes after the tag read back
    as its exact length. *)
Lemma length_field_exact (v : value) (n : Z) (bs : bytes) :
  length_field v = Some n ->
  _compile_object v = Ok bs ->
  n < 2 ^ 32 /\ from_bytes (List.firstn 4 (List.tl bs)) = n.
Proof.
  intros Hf E.
  assert (Hn : 0 <= n).
  { destruct v; simpl in Hf; try discriminate Hf;
      try (inversion Hf; apply len_nonneg).
    destruct (encode_utf8 s); inversion Hf. apply len_nonneg. }
  destruct (Z.lt_ge_cases n (2 ^ 32)) as [Hlt|Hge].
  2: { rewrite (oversized_raises v n Hf Hge) in E. discriminate E. }
  split; [exact Hlt|].
  destruct v; simpl in Hf; try discriminate Hf; simpl in E.
  - inversion Hf; subst. unfold _compile_bytestring in E.
    rewrite to_bytes_4_small in E by lia. inversion E.
    simpl. apply from_bytes_length_field. lia.
  - unfold _compile_unicode_string in E.
    destruct (encode_utf8 s) as [encoded|e]; [|discriminate Hf].
    inversion Hf; subst. simpl in E.
    rewrite to_bytes_4_small in E by lia. inversion E.
    simpl. apply from_bytes_length_field. lia.
  - inversion Hf; subst. unfold compile_tuple_with in E.
    rewrite to_bytes_4_small in E by lia. simpl in E.
    destruct (mapM _compile_object t); inversion E.
    simpl. apply from_bytes_length_field. lia.
  - inversion Hf; subst. unfold compile_list_with in E.
    rewrite to_bytes_4_small in E by lia. simpl in E.
    destruct (mapM _compile_object t); inversion E.
    simpl. apply from_bytes_length_field. lia.
  - inversion Hf; subst. unfold compile_dict_with in E.
    rewrite to_bytes_4_small in E by lia. simpl in E.
    destruct (mapM (compile_item_with _compile_object) items); inversion E.
    simpl. apply from_bytes_length_field. lia.
Qed.

(** *** Dicts *)

Lemma compile_item_with_spec (kv : value * value) (e : bytes) :
  compile_item_with _compile_object kv = Ok e <-> item_encoding kv e.
Proof.
  unfold compile_item_with, item_encoding. split.
  - destruct (_compile_object (fst kv)) as [k|]; simpl; [|discriminate].
    destruct (_compile_object (snd kv)) as [v|]; simpl; [|discriminate].
    intros E. inversion E. exists k, v. auto.
  - intros (k & v & Ek & Ev & ->). rewrite Ek, Ev. reflexivity.
Qed.

(** C6.  A dict is encoded exactly when it has fewer than 2^32 items and
    every key and value is encoded, and then as the tag ['d'], the item count
    as four little-endian bytes, and for each item, in the order in which the
    dict yields them, the encoding of the key directly followed by that of
    the value. *)
Theorem compile_dict_layout (items : list (value * value)) (bs : bytes) :
  _compile_object (VDict items) = Ok bs <->
  len items < 2 ^ 32 /\
  exists encs,
    List.Forall2 item_encoding items encs /\
    bs = B "d" ++ le_split 4 (len items) ++ List.concat encs /\
    from_bytes (le_split 4 (len items)) = len items.
Proof.
  simpl. unfold compile_dict_with. pose proof (len_nonneg items) as Hl.
  split.
  - destruct (Z.lt_ge_cases (len items) (2 ^ 32)) as [Hlt|Hge].
    2: { rewrite to_bytes_4_big by exact Hge. discriminate. }
    rewrite to_bytes_4_small by lia. simpl.
    destruct (mapM (compile_item_with _compile_object) items) as [encs|e]
      eqn:Em; simpl; [|discriminate].
    intros E. inversion E. split; [exact Hlt|]. exists encs.
    split; [|split].
    + apply mapM_Forall2 in Em.
      eapply List.Forall2_impl; [|exact Em].
      intros kv e. apply compile_item_with_spec.
    + reflexivity.
    + apply from_bytes_length_field. lia.
  - intros (Hlt & encs & F & -> & _).
    rewrite to_bytes_4_small by lia. simpl.
    assert (Em : mapM (compile_item_with _compile_object) items = Ok encs).
    { apply mapM_Forall2. eapply List.Forall2_impl; [|exact F].
      intros kv e. apply compile_item_with_spec. }
    rewrite Em. reflexivity.
Qed.

(** The items of a dict built as [{"b": 1, "a": 2}] come out in that order,
    not sorted by key. *)
Example compile_dict_insertion_order :
  _compile_object (VDict [(VStr (U "b"), VInt 1); (VStr (U "a"), VInt 2)]) =
  Ok (B "d" ++ le_split 4 2 ++
      (B "s" ++ le_split 4 1 ++ B "b") ++ (B "i" ++ le_split 4 1) ++
      (B "s" ++ le_split 4 1 ++ B "a") ++ (B "i" ++ le_split 4 2)).
Proof. reflexivity. Qed.

(** *** Induction on values *)

Section ValueInduction.
Variable P : value -> Prop.
Hypothesis HInt : forall n, P (VInt n).
Hypothesis HBool : forall b, P (VBool b).
Hypothesis HBytes : forall s, P (VBytes s).
Hypothesis HStr : forall s, P (VStr s).
Hypothesis HTuple : forall t, List.Forall P t -> P (VTuple t).
Hypothesis HList : forall t, List.Forall P t -> P (VList t).
Hypothesis HDict :
  forall t, List.Forall (fun kv => P (fst kv) /\ P (snd kv)) t ->
            P (VDict t).
Hypothesis HNone : P VNone.
Hypothesis HFloat : forall bits, P (VFloat bits).
Hypothesis HCode :
  forall obb,
    List.Forall P (co_consts obb) -> List.Forall P (co_names obb) ->
    List.Forall P (co_varnames obb) -> List.Forall P (co_freevars obb) ->
    List.Forall P (co_cellvars obb) -> P (VCode obb).
Hypothesis HOther : forall cls, P (VOther cls).

Fixpoint value_ind (v : value) : P v :=
  let all :=
    fix all (l : list value) : List.Forall P l :=
      match l with
      | [] => List.Forall_nil P
      | x :: l' => List.Forall_cons x (value_ind x) (all l')
      end in
  match v with
  | VInt n => HInt n
  | VBool b => HBool b
  | VBytes s => HBytes s
  | VStr s => HStr s
  | VTuple t => HTuple t (all t)
  | VList t => HList t (all t)
  | VDict t =>
      HDict t
        ((fix items (l : list (value * value))
            : List.Forall (fun kv => P (fst kv) /\ P (snd kv)) l :=
            match l with
            | [] => List.Forall_nil _
            | kv :: l' =>
                List.Forall_cons kv
                  (conj (value_ind (fst kv)) (value_ind (snd kv)))
                  (items l')
            end) t)
  | VNone => HNone
  | VFloat bits => HFloat bits
  | VCode obb =>
      HCode obb (all (co_consts obb)) (all (co_names obb))
        (all (co_varnames obb)) (all (co_freevars obb))
        (all (co_cellvars obb))
  | VOther cls => HOther cls
  end.
End ValueInduction.

(** *** The domain of the encoder *)

Lemma is_ok_compile_int (n : Z) : is_ok (_compile_int n) = int32 n.
Proof.
  unfold _compile_int, to_bytes_signed, int32.
  change (2 ^ (8 * Z.of_nat 4 - 1)) with (2 ^ 31).
  destruct ((- 2 ^ 31 <=? n) && (n <? 2 ^ 31)); reflexivity.
Qed.

Lemma is_ok_compile_bytestring (s : bytes) :
  is_ok (_compile_bytestring s) = short s.
Proof.
  unfold _compile_bytestring. rewrite <- is_ok_to_bytes_len.
  destruct (to_bytes 4 (len s)); reflexivity.
Qed.

Lemma encode_from_clean (pos : nat) (s : str) :
  List.forallb (fun c => negb (is_surrogate c)) s = true ->
  encode_from pos s = Ok (List.flat_map utf8_char s).
Proof.
  revert pos. induction s as [|c s IH]; intros pos H; simpl in *.
  - reflexivity.
  - apply andb_true_iff in H. destruct H as [Hc Hs].
    destruct (is_surrogate c); [discriminate Hc|].
    rewrite IH by exact Hs. reflexivity.
Qed.

Lemma encode_from_surrogate (pos : nat) (s : str) :
  List.forallb (fun c => negb (is_surrogate c)) s = false ->
  is_ok (encode_from pos s) = false.
Proof.
  revert pos. induction s as [|c s IH]; intros pos H; simpl in *.
  - discriminate H.
  - destruct (is_surrogate c); [reflexivity|]. simpl in H.
    specialize (IH (S pos) H).
    destruct (encode_from (S pos) s); [discriminate IH|reflexivity].
Qed.

Lemma is_ok_compile_unicode_string (s : str) :
  is_ok (_compile_unicode_string s) = text_ok s.
Proof.
  unfold _compile_unicode_string, text_ok, encode_utf8.
  destruct (List.forallb (fun c => negb (is_surrogate c)) s) eqn:H.
  - rewrite encode_from_clean by exact H. simpl.
    rewrite <- is_ok_to_bytes_len.
    destruct (to_bytes 4 (len (List.flat_map utf8_char s))); reflexivity.
  - apply (encode_from_surrogate 0) in H.
    destruct (encode_from 0 s); [discriminate H|reflexivity].
Qed.

Lemma forallb_Forall_eq {A} (f g : A -> bool) (l : list A) :
  List.Forall (fun x => f x = g x) l -> List.forallb f l = List.forallb g l.
Proof.
  induction 1 as [|x l Hx _ IH]; simpl; [reflexivity|].
  rewrite Hx, IH. reflexivity.
Qed.

Section Sequences.
Variable rec : value -> result bytes.

Lemma is_ok_compile_tuple_with (t : list value) :
  List.Forall (fun x => is_ok (rec x) = encodable x) t ->
  is_ok (compile_tuple_with rec t) = short t && List.forallb encodable t.
Proof.
  intros F. unfold compile_tuple_with.
  rewrite <- is_ok_to_bytes_len, <- (forallb_Forall_eq _ _ _ F).
  rewrite <- is_ok_mapM.
  destruct (to_bytes 4 (len t)); simpl; [|reflexivity].
  destruct (mapM rec t); reflexivity.
Qed.

Lemma is_ok_compile_list_with (t : list value) :
  List.Forall (fun x => is_ok (rec x) = encodable x) t ->
  is_ok (compile_list_with rec t) = short t && List.forallb encodable t.
Proof.
  intros F. unfold compile_list_with.
  rewrite <- is_ok_to_bytes_len, <- (forallb_Forall_eq _ _ _ F).
  rewrite <- is_ok_mapM.
  destruct (to_bytes 4 (len t)); simpl; [|reflexivity].
  destruct (mapM rec t); reflexivity.
Qed.

Lemma is_ok_compile_dict_with (t : list (value * value)) :
  List.Forall
    (fun kv => is_ok (rec (fst kv)) = encodable (fst kv) /\
               is_ok (rec (snd kv)) = encodable (snd kv)) t ->
  is_ok (compile_dict_with rec t) =
  short t &&
  List.forallb (fun kv => encodable (fst kv) && encodable (snd kv)) t.
Proof.
  intros F. unfold compile_dict_with.
  rewrite <- is_ok_to_bytes_len.
  assert (E : List.forallb (fun kv => is_ok (compile_item_with rec kv)) t =
              List.forallb
                (fun kv => encodable (fst kv) && encodable (snd kv)) t).
  { apply forallb_Forall_eq. eapply List.Forall_impl; [|exact F].
    intros kv [Hk Hv]. unfold compile_item_with. rewrite <- Hk, <- Hv.
    destruct (rec (fst kv)); simpl; [|reflexivity].
    destruct (rec (snd kv)); reflexivity. }
  rewrite <- E, <- is_ok_mapM.
  destruct (to_bytes 4 (len t)); simpl; [|reflexivity].
  destruct (mapM (compile_item_with rec) t); reflexivity.
Qed.
End Sequences.

Ltac step_bind :=
  match goal with
  | |- context [bind ?m _] => destruct m; simpl; [|reflexivity]
  end.

Lemma is_ok_compile_object (v : value) :
  is_ok (_compile_object v) = encodable v.
Proof.
  induction v using value_ind; simpl.
  - apply is_ok_compile_int.
  - destruct b; reflexivity.
  - apply is_ok_compile_bytestring.
  - apply is_ok_compile_unicode_string.
  - apply is_ok_compile_tuple_with. assumption.
  - apply is_ok_compile_list_with. assumption.
  - apply is_ok_compile_dict_with. assumption.
  - reflexivity.
  - reflexivity.
  - rewrite <- !is_ok_compile_int, <- !is_ok_compile_bytestring,
      <- !is_ok_compile_unicode_string.
    rewrite <- !(is_ok_compile_tuple_with _compile_object) by assumption.
    unfold compile_code_object_with.
    repeat step_bind. reflexivity.
  - reflexivity.
Qed.

(** On a call stack that is never exhausted, the encoder returns bytes
    exactly on the values built from the union's kinds whose integers lie in
    the signed 32-bit range, whose texts hold no surrogate code point and
    whose byte lengths, UTF-8 lengths and element and item counts are below
    2^32.  The recursion limit is taken into account further down. *)
Theorem compile_object_domain :
  (forall v, encodable v = true -> exists bs, _compile_object v = Ok bs) /\
  (forall v, encodable v = false -> exists e, _compile_object v = Raise e) /\
  (forall cls,
     _compile_object (VOther cls) =
     Raise (Exn ValueError (U "Unknown type <class '" ++ cls ++ U "'>"))).
Proof.
  split; [|split].
  - intros v H. apply is_ok_true. rewrite is_ok_compile_object. exact H.
  - intros v H. pose proof (is_ok_compile_object v) as E. rewrite H in E.
    destruct (_compile_object v) as [bs|e]; [discriminate E|].
    exists e. reflexivity.
  - reflexivity.
Qed.

(** A byte string of 2^32 bytes and a text holding a lone surrogate are
    values of the union, and the encoder raises on both. *)
Lemma compile_object_not_total_on_union :
  in_union (VBytes four_gib) = true /\
  _compile_object (VBytes four_gib) =
    Raise (Exn OverflowError (U "int too big to convert")) /\
  in_union (VStr [55296]) = true /\
  _compile_object (VStr [55296]) =
    Raise (Exn UnicodeEncodeError
      (U "'utf-8' codec can't encode character '\ud800' in position 0: surrogates not allowed")) /\
  ~ (forall v, in_union v = true -> exists bs, _compile_object v = Ok bs).
Proof.
  split; [reflexivity|]. split; [exact four_gib_raises|].
  split; [reflexivity|]. split; [reflexivity|].
  intros H. destruct (H (VBytes four_gib) eq_refl) as [bs Hbs].
  rewrite four_gib_raises in Hbs. discriminate Hbs.
Qed.

(** *** Splitting and joining *)

Lemma startswith_app (p r : str) : startswith (p ++ r) p = true.
Proof.
  induction p as [|a p IH]; simpl; [reflexivity|].
  rewrite Z.eqb_refl. exact IH.
Qed.

Lemma startswith_firstn (s p : str) :
  startswith s p = true -> List.firstn (List.length p) s = p.
Proof.
  revert s. induction p as [|a p IH]; intros s H; simpl in *.
  - reflexivity.
  - destruct s as [|b s]; [discriminate H|].
    apply andb_true_iff in H. destruct H as [Hab Hs].
    apply Z.eqb_eq in Hab. subst b. simpl. f_equal. apply IH. exact Hs.
Qed.

Lemma split_from_skip (sep x s cur : str) :
  split_from sep (List.length x) cur (x ++ s) = split_from sep O cur s.
Proof.
  induction x as [|c x IH]; simpl.
  - destruct s; reflexivity.
  - exact IH.
Qed.

Lemma split_from_absent (sep : str) (b cur : str) :
  sep <> [] -> contains b sep = false ->
  split_from sep O cur b = [List.rev cur ++ b].
Proof.
  intros Hsep. revert cur. induction b as [|c b IH]; intros cur H.
  - simpl. rewrite List.app_nil_r. reflexivity.
  - cbn [contains] in H. apply orb_false_iff in H. destruct H as [H1 H2].
    cbn [split_from]. rewrite H1. rewrite IH by exact H2.
    simpl. rewrite <- List.app_assoc. reflexivity.
Qed.

(** A match of [sep] that starts inside [a] and runs into the [sep] that
    follows it makes a border of [sep]. *)
Lemma overlap_border (sep a b : str) :
  (0 < List.length a < List.length sep)%nat ->
  startswith (a ++ sep ++ b) sep = true ->
  unbordered sep = false.
Proof.
  intros Hlen H. apply startswith_firstn in H.
  rewrite List.firstn_app in H.
  rewrite (List.firstn_all2 a) in H by lia.
  rewrite List.firstn_app in H.
  replace (List.length sep - List.length a - List.length sep)%nat
    with O in H by lia.
  rewrite List.firstn_O, List.app_nil_r in H.
  set (k := (List.length sep - List.length a)%nat) in *.
  assert (Hk : List.skipn (List.length sep - k) sep = List.firstn k sep).
  { replace (List.length sep - k)%nat with (List.length a) by (unfold k; lia).
    rewrite <- H at 1. rewrite List.skipn_app, Nat.sub_diag.
    rewrite (List.skipn_all2 a) by lia. reflexivity. }
  unfold unbordered.
  destruct (List.forallb _ _) eqn:F; [|reflexivity].
  rewrite List.forallb_forall in F.
  assert (Hin : List.In k (List.seq 1 (List.length sep - 1))).
  { apply List.in_seq. unfold k. lia. }
  specialize (F k Hin). rewrite Hk in F.
  destruct (List.list_eq_dec Z.eq_dec (List.firstn k sep) (List.firstn k sep));
    [discriminate F|congruence].
Qed.

Lemma join_cons (sep p : str) (parts : list str) :
  parts <> [] -> join sep (p :: parts) = p ++ sep ++ join sep parts.
Proof. destruct parts; [congruence|reflexivity]. Qed.

(** Splitting at an unbordered separator finds its last occurrence: what
    precedes it is the join of all pieces but the last. *)
Lemma split_from_last (sep b : str) :
  sep <> [] -> unbordered sep = true -> contains b sep = false ->
  forall (n : nat) (a cur : str),
    (List.length a <= n)%nat ->
    exists init,
      init <> [] /\
      split_from sep O cur (a ++ sep ++ b) = init ++ [b] /\
      join sep init = List.rev cur ++ a.
Proof.
  intros Hsep Hu Hb.
  destruct sep as [|c0 sep'] eqn:Esep; [congruence|]. rewrite <- Esep in *.
  assert (Hmatch : forall cur rest,
            split_from sep O cur (sep ++ rest) =
            List.rev cur :: split_from sep O [] rest).
  { intros cur rest. rewrite Esep at 2. cbn [app split_from].
    replace (c0 :: sep' ++ rest) with (sep ++ rest) by (rewrite Esep; reflexivity).
    rewrite startswith_app. f_equal.
    replace (List.length sep - 1)%nat with (List.length sep')
      by (rewrite Esep; simpl; lia).
    apply split_from_skip. }
  induction n as [|n IH]; intros a cur Hn.
  - destruct a; [|simpl in Hn; lia]. simpl.
    exists [List.rev cur]. split; [discriminate|]. split.
    + rewrite Hmatch. rewrite split_from_absent by assumption. reflexivity.
    + simpl. rewrite List.app_nil_r. reflexivity.
  - destruct a as [|c a].
    { apply (IH [] cur). simpl. lia. }
    destruct (startswith ((c :: a) ++ sep ++ b) sep) eqn:Hs.
    + destruct (Nat.lt_ge_cases (List.length (c :: a)) (List.length sep))
        as [Hlt|Hge].
      { rewrite (overlap_border sep (c :: a) b) in Hu;
          [discriminate Hu| simpl in *; lia | exact Hs]. }
      pose proof (startswith_firstn _ _ Hs) as Hf.
      rewrite List.firstn_app in Hf.
      replace (List.length sep - List.length (c :: a))%nat with O in Hf by lia.
      rewrite List.firstn_O, List.app_nil_r in Hf.
      pose proof (List.firstn_skipn (List.length sep) (c :: a)) as Hsplit.
      rewrite Hf in Hsplit. set (a2 := List.skipn (List.length sep) (c :: a)) in *.
      assert (Hlen2 : (List.length a2 <= n)%nat).
      { assert (L : List.length (c :: a) = List.length (sep ++ a2))
          by (rewrite Hsplit; reflexivity).
        rewrite List.length_app in L. rewrite Esep in L. simpl in L, Hn. lia. }
      destruct (IH a2 [] Hlen2) as (init & Hne & Hsp & Hj).
      exists (List.rev cur :: init). split; [discriminate|]. split.
      * rewrite <- Hsplit, <- List.app_assoc, Hmatch, Hsp. reflexivity.
      * rewrite join_cons by exact Hne. rewrite Hj. simpl.
        rewrite <- Hsplit. reflexivity.
    + assert (Hlen : (List.length a <= n)%nat) by (simpl in Hn; lia).
      destruct (IH a (c :: cur) Hlen) as (init & Hne & Hsp & Hj).
      exists init. split; [exact Hne|]. split.
      * change ((c :: a) ++ sep ++ b) with (c :: (a ++ sep ++ b)) in *.
        cbn [split_from]. rewrite Hs. exact Hsp.
      * rewrite Hj. simpl. rewrite <- List.app_assoc. reflexivity.
Qed.

Lemma removelast_snoc {A} (l : list A) (x : A) :
  List.removelast (l ++ [x]) = l.
Proof. apply List.removelast_last. Qed.

Lemma split_last_occurrence (a sep b : str) :
  sep <> [] -> unbordered sep = true -> contains b sep = false ->
  exists pieces,
    split (a ++ sep ++ b) sep = Ok pieces /\
    last_item pieces = Ok b /\
    join sep (but_last pieces) = a.
Proof.
  intros Hsep Hu Hb.
  destruct (split_from_last sep b Hsep Hu Hb (List.length a) a [] (le_n _))
    as (init & Hne & Hsp & Hj).
  exists (init ++ [b]). split; [|split].
  - unfold split. destruct sep; [congruence|]. rewrite Hsp. reflexivity.
  - unfold last_item. rewrite List.rev_app_distr. reflexivity.
  - unfold but_last. rewrite removelast_snoc. exact Hj.
Qed.

Lemma split_absent (s sep : str) :
  sep <> [] -> contains s sep = false ->
  split s sep = Ok [s].
Proof.
  intros Hsep H. unfold split. destruct sep; [congruence|].
  rewrite split_from_absent by (congruence || assumption). reflexivity.
Qed.

(** *** [compile_kyc] *)

Section CompileKyc.
Variable h : host.

Lemma path_sep_nonempty : path_sep h <> [].
Proof. unfold path_sep. destruct (windows h); discriminate. Qed.

Lemma path_sep_unbordered : unbordered (path_sep h) = true.
Proof. unfold path_sep. destruct (windows h); reflexivity. Qed.

(** What a call of [compile_kyc] that returns has gone through. *)
Lemma compile_kyc_ok (path ending : str) (full : bool) (fs fs' : files h)
    (b : bytes) :
  compile_kyc h path ending full fs = (Ok b, fs') ->
  exists parts last pieces file_data compiled code_object version comment,
    split path (path_sep h) = Ok parts /\
    last_item parts = Ok last /\
    split last ending = Ok pieces /\
    read_text h fs path = Ok file_data /\
    compile h file_data (if full then path else last) = Ok compiled /\
    _compile_code_object compiled = Ok code_object /\
    to_bytes 1 (version_minor h) = Ok version /\
    _compile_unicode_string CODE_COMMENT = Ok comment /\
    b = B "KYCA" ++ version ++ B "K" ++ B "L" ++ header_zeros ++
        comment ++ code_object /\
    write_bytes h fs
      (directory_or_dot (join (path_sep h) (but_last parts)) ++
       path_sep h ++ join ending (but_last pieces) ++ U ".kyc") b =
    (Ok tt, fs').
Proof.
  unfold compile_kyc, compile_kyc_pure.
  destruct (split path (path_sep h)) as [parts|] eqn:E1; cbn [bind];
    [|discriminate].
  destruct (last_item parts) as [last|] eqn:E2; cbn [bind]; [|discriminate].
  destruct (split last ending) as [pieces|] eqn:E3; cbn [bind];
    [|discriminate].
  destruct (read_text h fs path) as [file_data|] eqn:E4; cbn [bind];
    [|discriminate].
  destruct (compile h file_data (if full then path else last))
    as [compiled|] eqn:E5; cbn [bind]; [|discriminate].
  destruct (_compile_code_object compiled) as [code_object|] eqn:E6;
    cbn [bind]; [|discriminate].
  destruct (to_bytes 1 (version_minor h)) as [version|] eqn:E7; cbn [bind];
    [|discriminate].
  destruct (_compile_unicode_string CODE_COMMENT) as [comment|] eqn:E8;
    cbn [bind]; [|discriminate].
  assert (Ed : forall d : str,
            match d with [] => U "." | _ :: _ => d end = directory_or_dot d)
    by (intros []; reflexivity).
  rewrite Ed.
  assert (Eb : List.concat
                 [B "KYCA"; version; B "K"; B "L"; header_zeros; comment;
                  code_object] =
               B "KYCA" ++ version ++ B "K" ++ B "L" ++ header_zeros ++
               comment ++ code_object).
  { cbn [List.concat]. rewrite List.app_nil_r. reflexivity. }
  rewrite Eb.
  destruct (write_bytes h fs _ _) as [[[]|] fs1] eqn:E9; [|discriminate].
  intros E. inversion E; subst.
  exists parts, last, pieces, file_data, compiled, code_object, version,
    comment.
  repeat (split; [first [assumption | reflexivity]|]).
  exact E9.
Qed.

Lemma to_bytes_1_ok (n : Z) (version : bytes) :
  to_bytes 1 n = Ok version ->
  0 <= n < 256 /\ version = [byte.of_Z n] /\ byte.unsigned (byte.of_Z n) = n.
Proof.
  unfold to_bytes. change (2 ^ (8 * Z.of_nat 1)) with 256.
  destruct (Z.ltb_spec n 0); [discriminate|].
  destruct (Z.ltb_spec n 256); [|discriminate].
  intros E. inversion E. split; [lia|]. split; [reflexivity|].
  rewrite byte.unsigned_of_Z. unfold byte.wrap.
  apply Z.mod_small. change (2 ^ 8) with 256. lia.
Qed.

Lemma compile_code_object_tag (obb : code) (bs : bytes) :
  _compile_code_object obb = Ok bs -> exists fields, bs = B "c" ++ fields.
Proof.
  unfold _compile_code_object, compile_code_object_with.
  repeat match goal with
         | |- context [bind ?m _] => destruct m; simpl; [|discriminate]
         end.
  intros E. inversion E. eexists. reflexivity.
Qed.

Lemma comment_encoding :
  _compile_unicode_string CODE_COMMENT =
  Ok (B "s" ++ le_split 4 58 ++
      B "This is an internal file generated by Kython. Do not edit!").
Proof. reflexivity. Qed.
End CompileKyc.

(** C2.  The bytes that a successful [compile_kyc] returns are ["KYCA"], the
    minor version of the interpreter as one byte, ['K'], ['L'], eight zero
    bytes, the encoding of the comment text (tag ['s']) and the encoding of
    the code object that [compile] returned (tag ['c']), and nothing else. *)
Theorem container_layout (h : host) (path ending : str) (full : bool)
    (fs fs' : files h) (b : bytes) :
  compile_kyc h path ending full fs = (Ok b, fs') ->
  exists comment text compiled unit_bytes fields,
    b = B "KYCA" ++ [byte.of_Z (version_minor h)] ++ B "K" ++ B "L" ++
        List.repeat Byte.x00 8 ++ comment ++ unit_bytes /\
    List.firstn 4 b = B "KYCA" /\
    0 <= version_minor h < 256 /\
    option_map byte.unsigned (List.nth_error b 4) = Some (version_minor h) /\
    List.firstn 2 (List.skipn 5 b) = B "KL" /\
    List.firstn 8 (List.skipn 7 b) = List.repeat Byte.x00 8 /\
    List.skipn 15 b = comment ++ unit_bytes /\
    _compile_object (VStr CODE_COMMENT) = Ok comment /\
    comment = B "s" ++ text /\
    _compile_object (VCode compiled) = Ok unit_bytes /\
    unit_bytes = B "c" ++ fields.
Proof.
  intros E. apply compile_kyc_ok in E.
  destruct E as (parts & last & pieces & file_data & compiled & code_object &
                 version & comment & _ & _ & _ & _ & _ & E6 & E7 & E8 & Eb & _).
  apply to_bytes_1_ok in E7. destruct E7 as (Hv & -> & Hu).
  destruct (compile_code_object_tag compiled code_object E6) as [fields Ef].
  rewrite comment_encoding in E8. inversion E8 as [Ec].
  exists comment, (le_split 4 58 ++
    B "This is an internal file generated by Kython. Do not edit!"),
    compiled, code_object, fields.
  rewrite <- Ec in *. subst b.
  split; [reflexivity|]. split; [reflexivity|]. split; [exact Hv|].
  split; [simpl; rewrite Hu; reflexivity|].
  split; [reflexivity|]. split; [reflexivity|]. split; [reflexivity|].
  split; [reflexivity|]. split; [reflexivity|].
  split; [exact E6|exact Ef].
Qed.

Lemma container_layout_witness :
  exists b fs',
    compile_kyc toy (U "dir/foo.py") (U ".py") false toy_files = (Ok b, fs') /\
    exists comment text compiled unit_bytes fields,
      b = B "KYCA" ++ [byte.of_Z (version_minor toy)] ++ B "K" ++ B "L" ++
          List.repeat Byte.x00 8 ++ comment ++ unit_bytes /\
      List.firstn 4 b = B "KYCA" /\
      0 <= version_minor toy < 256 /\
      option_map byte.unsigned (List.nth_error b 4) =
        Some (version_minor toy) /\
      List.firstn 2 (List.skipn 5 b) = B "KL" /\
      List.firstn 8 (List.skipn 7 b) = List.repeat Byte.x00 8 /\
      List.skipn 15 b = comment ++ unit_bytes /\
      _compile_object (VStr CODE_COMMENT) = Ok comment /\
      comment = B "s" ++ text /\
      _compile_object (VCode compiled) = Ok unit_bytes /\
      unit_bytes = B "c" ++ fields.
Proof.
  eexists. eexists. split; [vm_compute; reflexivity|].
  eapply (container_layout toy (U "dir/foo.py") (U ".py") false toy_files).
  vm_compute. reflexivity.
Defined.

(** For an input file whose name is free of the
    path separator and ends with the extension, the extension being non-empty
    and unbordered (as [".py"] is), a successful [compile_kyc] writes its
    bytes to the file named after the input with that final extension
    replaced by [".kyc"], in the directory of the input, or in ["."] for a
    bare file name. *)
Theorem kyc_written_next_to_input (h : host) (dir stem ending : str)
    (full : bool) (fs fs' : files h) (b : bytes) :
  contains (stem ++ ending) (path_sep h) = false ->
  ending <> [] ->
  unbordered ending = true ->
  compile_kyc h (in_directory h dir (stem ++ ending)) ending full fs =
    (Ok b, fs') ->
  write_bytes h fs
    (directory_or_dot dir ++ path_sep h ++ stem ++ U ".kyc") b = (Ok tt, fs').
Proof.
  intros Hname Hend Hu E. apply compile_kyc_ok in E.
  destruct E as (parts & last & pieces & _ & _ & _ & _ & _ &
                 E1 & E2 & E3 & _ & _ & _ & _ & _ & _ & Ew).
  assert (Hparts : last = stem ++ ending /\
                   join (path_sep h) (but_last parts) = dir).
  { destruct dir as [|c dir'] eqn:Ed; unfold in_directory in E1.
    - rewrite split_absent in E1
        by (apply path_sep_nonempty || exact Hname).
      inversion E1; subst parts. inversion E2. split; reflexivity.
    - rewrite <- Ed in *.
      destruct (split_last_occurrence dir (path_sep h) (stem ++ ending)
                  (path_sep_nonempty h) (path_sep_unbordered h) Hname)
        as (pieces' & S1 & S2 & S3).
      rewrite S1 in E1. inversion E1; subst parts.
      rewrite S2 in E2. inversion E2. split; [reflexivity|exact S3]. }
  destruct Hparts as [-> Hdir]. rewrite Hdir in Ew.
  assert (Hnil : contains [] ending = false).
  { destruct ending; [congruence|reflexivity]. }
  destruct (split_last_occurrence stem ending [] Hend Hu Hnil)
    as (pieces' & S1 & _ & S3).
  rewrite List.app_nil_r in S1. rewrite S1 in E3. inversion E3; subst pieces.
  rewrite S3 in Ew. exact Ew.
Qed.

Lemma kyc_written_next_to_input_witness :
  exists b fs',
    compile_kyc toy (U "dir/foo.py") (U ".py") false toy_files = (Ok b, fs') /\
    write_bytes toy toy_files (U "dir/foo.kyc") b = (Ok tt, fs').
Proof.
  eexists. eexists. split; [vm_compute; reflexivity|].
  apply (kyc_written_next_to_input toy (U "dir") (U "foo") (U ".py") false).
  - reflexivity.
  - discriminate.
  - reflexivity.
  - vm_compute. reflexivity.
Defined.

(** C7.  The output name is wrong when the extension is not at the end of
    the name of the input:
    [dir/foo.txt] is compiled to [dir/.kyc] and [dir/foo.py.bak] to
    [dir/foo.kyc], whereas removing the extension [".py"] leaves [foo.txt]
    and [foo.py.bak] (a suffix that is not there), or [foo.bak] (every
    occurrence). *)
Lemma kyc_name_extension_not_at_end :
  (exists b,
     compile_kyc toy (U "dir/foo.txt") (U ".py") false
       [(U "dir/foo.txt", [])] =
     (Ok b, [(U "dir/.kyc", b); (U "dir/foo.txt", [])])) /\
  removesuffix (U "foo.txt") (U ".py") = U "foo.txt" /\
  U "dir/.kyc" <> U "dir/foo.txt.kyc" /\
  (exists b,
     compile_kyc toy (U "dir/foo.py.bak") (U ".py") false
       [(U "dir/foo.py.bak", [])] =
     (Ok b, [(U "dir/foo.kyc", b); (U "dir/foo.py.bak", [])])) /\
  removesuffix (U "foo.py.bak") (U ".py") = U "foo.py.bak" /\
  U "dir/foo.kyc" <> U "dir/foo.py.bak.kyc" /\
  U "dir/foo.kyc" <> U "dir/foo.bak.kyc".
Proof.
  split; [eexists; vm_compute; reflexivity|].
  split; [reflexivity|]. split; [discriminate|].
  split; [eexists; vm_compute; reflexivity|].
  split; [reflexivity|]. split; discriminate.
Qed.

(** *** The daemon *)

Section Daemon.
Variable h : host.

Lemma str_eqb_refl (a : str) : str_eqb a a = true.
Proof.
  unfold str_eqb. destruct (List.list_eq_dec Z.eq_dec a a); congruence.
Qed.

Lemma str_eqb_neq (a b : str) : a <> b -> str_eqb a b = false.
Proof.
  unfold str_eqb. destruct (List.list_eq_dec Z.eq_dec a b); congruence.
Qed.

(** A line whose first token is not [c] is answered with [u]. *)
Lemma loop_body_unknown (data command : str) (args : list str)
    (fs : files h) :
  split_ws data = command :: args -> command <> U "c" ->
  loop_body h data fs = (Ok (U "u"), fs).
Proof.
  intros Hs Hc. unfold loop_body. rewrite Hs.
  rewrite str_eqb_neq by exact Hc. reflexivity.
Qed.

(** A line [c path ...] is answered with [C] and the bytes in hexadecimal
    when [compile_kyc] returns, and with [e] and the message of the
    exception when it raises. *)
Lemma loop_body_compile (data path : str) (args : list str) (fs : files h) :
  split_ws data = U "c" :: path :: args ->
  loop_body h data fs =
  match compile_kyc h path (U ".py") false fs with
  | (Ok compiled, fs') => (Ok (U "C " ++ hex compiled), fs')
  | (Raise e, fs') =>
      (msg <- encode_utf8 (exn_str e) ;; Ok (U "e " ++ hex msg), fs')
  end.
Proof.
  intros Hs. unfold loop_body. rewrite Hs, str_eqb_refl.
  cbn [first_item].
  destruct (compile_kyc h path (U ".py") false fs) as [[compiled|e] fs'];
    reflexivity.
Qed.

Lemma loop_cons_ok (data line : str) (rest : list str) (fs fs' : files h) :
  loop_body h data fs = (Ok line, fs') ->
  loop h (data :: rest) fs =
  (line :: fst (fst (loop h rest fs')), snd (fst (loop h rest fs')),
   snd (loop h rest fs')).
Proof.
  intros E. cbn [loop]. rewrite E.
  destruct (loop h rest fs') as [[out e] fs'']. reflexivity.
Qed.
End Daemon.

(** C4.  A line without any token, be it the empty string read at the end of
    input or a line of white space only, makes the unpacking
    [command, *args = data.split()] raise [ValueError] outside every [try]:
    nothing is printed for it and the loop ends, the lines after it
    unread. *)
Theorem blank_line_ends_loop (h : host) (fs : files h) (rest : list str) :
  loop_body h [] fs = (Raise unpack_error, fs) /\
  loop_body h newline fs = (Raise unpack_error, fs) /\
  loop h ([] :: rest) fs = ([], Some unpack_error, fs) /\
  loop h (newline :: rest) fs = ([], Some unpack_error, fs) /\
  loop h ((U "x foo" ++ newline) :: newline :: rest) fs =
    ([U "u"], Some unpack_error, fs).
Proof. repeat split. Qed.

(** C9.  A line that consists of the command [c] alone is answered with the
    line [e] followed by the hexadecimal form of the message of the
    [IndexError] that [args[0]] raises; the file system is untouched and the
    loop goes on to the next line. *)
Theorem c_without_path_answered_with_e (h : host) (fs : files h)
    (data : str) (rest : list str) :
  split_ws data = [U "c"] ->
  loop_body h data fs =
    (Ok (U "e " ++ hex (B "list index out of range")), fs) /\
  U "e " ++ hex (B "list index out of range") =
    U "e 6c69737420696e646578206f7574206f662072616e6765" /\
  loop h (data :: rest) fs =
    (U "e 6c69737420696e646578206f7574206f662072616e6765" ::
       fst (fst (loop h rest fs)),
     snd (fst (loop h rest fs)), snd (loop h rest fs)).
Proof.
  intros Hs.
  assert (E : loop_body h data fs =
              (Ok (U "e " ++ hex (B "list index out of range")), fs)).
  { unfold loop_body. rewrite Hs, str_eqb_refl. reflexivity. }
  split; [exact E|]. split; [reflexivity|].
  apply loop_cons_ok. exact E.
Qed.

Lemma c_without_path_answered_with_e_witness :
  loop_body toy (U "c" ++ newline) toy_files =
    (Ok (U "e " ++ hex (B "list index out of range")), toy_files) /\
  U "e " ++ hex (B "list index out of range") =
    U "e 6c69737420696e646578206f7574206f662072616e6765" /\
  loop toy ((U "c" ++ newline) :: [U "x foo" ++ newline]) toy_files =
    (U "e 6c69737420696e646578206f7574206f662072616e6765" ::
       fst (fst (loop toy [U "x foo" ++ newline] toy_files)),
     snd (fst (loop toy [U "x foo" ++ newline] toy_files)),
     snd (loop toy [U "x foo" ++ newline] toy_files)).
Proof.
  apply (c_without_path_answered_with_e toy toy_files (U "c" ++ newline)
           [U "x foo" ++ newline]).
  reflexivity.
Defined.

(** *** The encoder under the recursion limit *)




Section Within.
Variable k : nat.


End Within.











Lemma stack_need_nested (d : nat) : stack_need (nested d) = (2 * d + 2)%nat.
Proof.
  induction d as [|d IH]; [reflexivity|].
  cbn [nested stack_need List.map List.list_max]. rewrite IH.
  simpl. lia.
Qed.




End KycFacts.

(** ** Further properties of the encoder, the compiler and the daemon *)

Module KycExtra.
Import Py Kyc KycFacts.

(** *** Byte strings and texts *)

Lemma app_same_length {A} (a1 a2 r1 r2 : list A) :
  List.length a1 = List.length a2 -> a1 ++ r1 = a2 ++ r2 ->
  a1 = a2 /\ r1 = r2.
Proof.
  revert a2. induction a1 as [|x a1 IH]; intros [|y a2] Hl E;
    try discriminate Hl.
  - split; [reflexivity|exact E].
  - simpl in *. inversion E; subst.
    destruct (IH a2) as [-> ->]; [lia|assumption|]. split; reflexivity.
Qed.

Lemma length_field_inj (n m : Z) :
  0 <= n < 2 ^ 32 -> 0 <= m < 2 ^ 32 -> le_split 4 n = le_split 4 m -> n = m.
Proof.
  intros Hn Hm E.
  rewrite <- (from_bytes_length_field n Hn), <- (from_bytes_length_field m Hm).
  rewrite E. reflexivity.
Qed.

(** X1.  A byte string shorter than 2^32 bytes is encoded as the tag ['b'],
    its length as four little-endian bytes and the bytes themselves, 5 +
    len(s) bytes in all; a longer one is not encoded. *)
Theorem compile_bytestring_layout (s bs : bytes) :
  _compile_object (VBytes s) = Ok bs <->
  len s < 2 ^ 32 /\
  bs = B "b" ++ le_split 4 (len s) ++ s /\
  len bs = 1 + 4 + len s /\
  from_bytes (List.firstn 4 (List.tl bs)) = len s /\
  List.skipn 5 bs = s.
Proof.
  cbn [_compile_object]. unfold _compile_bytestring.
  pose proof (len_nonneg s) as Hs. split.
  - destruct (Z.lt_ge_cases (len s) (2 ^ 32)) as [Hlt|Hge].
    2: { rewrite to_bytes_4_big by exact Hge. discriminate. }
    rewrite to_bytes_4_small by lia. intros E. inversion E.
    split; [exact Hlt|]. split; [reflexivity|]. split; [|split].
    + unfold len. cbn [List.length]. lia.
    + simpl. apply from_bytes_length_field. lia.
    + reflexivity.
  - intros (Hlt & -> & _). rewrite to_bytes_4_small by lia. reflexivity.
Qed.

Lemma length_utf8_char (c : Z) :
  (1 <= List.length (utf8_char c) <= 4)%nat /\
  (List.length (utf8_char c) = 1%nat <-> c < 128).
Proof.
  unfold utf8_char.
  destruct (Z.ltb_spec c 128); [simpl; split; [lia|split; [lia|reflexivity]]|].
  destruct (Z.ltb_spec c 2048);
    [simpl; split; [lia|split; [discriminate|lia]]|].
  destruct (Z.ltb_spec c 65536); simpl; (split; [lia|split; [discriminate|lia]]).
Qed.

Lemma length_utf8 (s : str) :
  (List.length s <= List.length (List.flat_map utf8_char s) <=
   4 * List.length s)%nat.
Proof.
  induction s as [|c s IH]; cbn [List.flat_map List.length]; [simpl; lia|].
  rewrite List.length_app. pose proof (length_utf8_char c) as [Hc _]. lia.
Qed.

Lemma encode_utf8_ok (s : str) (encoded : bytes) :
  encode_utf8 s = Ok encoded ->
  List.forallb (fun c => negb (is_surrogate c)) s = true /\
  encoded = List.flat_map utf8_char s.
Proof.
  unfold encode_utf8. intros E.
  destruct (List.forallb (fun c => negb (is_surrogate c)) s) eqn:F.
  - rewrite encode_from_clean in E by exact F. inversion E. auto.
  - apply (encode_from_surrogate 0) in F. rewrite E in F. discriminate F.
Qed.

(** X2.  When a text is encoded, the result is the tag ['s'], a length field
    and the UTF-8 bytes of the text; the length field holds the number of
    those bytes, which lies between the number of characters and four times
    that number, and not the number of characters. *)
Theorem compile_unicode_string_counts_bytes (s : str) (bs : bytes) :
  _compile_object (VStr s) = Ok bs ->
  exists encoded,
    encode_utf8 s = Ok encoded /\
    encoded = List.flat_map utf8_char s /\
    bs = B "s" ++ le_split 4 (len encoded) ++ encoded /\
    from_bytes (List.firstn 4 (List.tl bs)) = len encoded /\
    len s <= len encoded <= 4 * len s /\
    len bs = 5 + len encoded.
Proof.
  cbn [_compile_object]. unfold _compile_unicode_string. intros E.
  destruct (encode_utf8 s) as [encoded|] eqn:Ee; [|discriminate E].
  cbn [bind] in E. pose proof (len_nonneg encoded) as Hl.
  destruct (Z.lt_ge_cases (len encoded) (2 ^ 32)) as [Hlt|Hge].
  2: { rewrite to_bytes_4_big in E by exact Hge. discriminate E. }
  rewrite to_bytes_4_small in E by lia. inversion E.
  exists encoded. destruct (encode_utf8_ok s encoded Ee) as [_ Hf].
  split; [reflexivity|]. split; [exact Hf|]. split; [reflexivity|].
  split; [simpl; apply from_bytes_length_field; lia|]. split.
  - pose proof (length_utf8 s). subst encoded. unfold len. lia.
  - unfold len. cbn [List.length]. lia.
Qed.

Lemma compile_unicode_string_counts_bytes_witness :
  exists encoded,
    encode_utf8 [233; 8364] = Ok encoded /\
    encoded = List.flat_map utf8_char [233; 8364] /\
    B "s" ++ le_split 4 5 ++ List.flat_map utf8_char [233; 8364] =
      B "s" ++ le_split 4 (len encoded) ++ encoded /\
    from_bytes
      (List.firstn 4
         (List.tl (B "s" ++ le_split 4 5 ++
                   List.flat_map utf8_char [233; 8364]))) = len encoded /\
    len [233; 8364] <= len encoded <= 4 * len [233; 8364] /\
    len (B "s" ++ le_split 4 5 ++ List.flat_map utf8_char [233; 8364]) =
      5 + len encoded.
Proof.
  apply (compile_unicode_string_counts_bytes [233; 8364]). reflexivity.
Defined.

(** *** Tuples and lists *)

Lemma compile_sequence_with (tagged : bytes) (t : list value) (bs : bytes) :
  (size <- to_bytes 4 (len t) ;;
   items <- mapM _compile_object t ;;
   Ok (tagged ++ size ++ List.concat items)) = Ok bs <->
  len t < 2 ^ 32 /\
  exists encs,
    List.Forall2 (fun x e => _compile_object x = Ok e) t encs /\
    bs = tagged ++ le_split 4 (len t) ++ List.concat encs.
Proof.
  pose proof (len_nonneg t) as Hl. split.
  - destruct (Z.lt_ge_cases (len t) (2 ^ 32)) as [Hlt|Hge].
    2: { rewrite to_bytes_4_big by exact Hge. discriminate. }
    rewrite to_bytes_4_small by lia. cbn [bind].
    destruct (mapM _compile_object t) as [encs|] eqn:Em; cbn [bind];
      [|discriminate].
    intros E. inversion E. split; [exact Hlt|]. exists encs.
    split; [apply mapM_Forall2; exact Em|reflexivity].
  - intros (Hlt & encs & F & ->). rewrite to_bytes_4_small by lia.
    apply mapM_Forall2 in F. cbn [bind]. rewrite F. reflexivity.
Qed.

(** X3.  A tuple is encoded exactly when it has fewer than 2^32 elements and
    each of them is encoded, and then as the tag ['t'], the element count as
    four little-endian bytes and the encodings of the elements one after the
    other, in the order of the tuple. *)
Theorem compile_tuple_layout (t : list value) (bs : bytes) :
  _compile_tuple t = Ok bs <->
  len t < 2 ^ 32 /\
  exists encs,
    List.Forall2 (fun x e => _compile_object x = Ok e) t encs /\
    bs = B "t" ++ le_split 4 (len t) ++ List.concat encs.
Proof. apply compile_sequence_with. Qed.

(** X4.  A list is encoded as the tuple of the same elements is, but for the
    tag, which is ['l'] in place of ['t']. *)
Theorem compile_list_as_tuple (t : list value) (rest : bytes) :
  _compile_object (VList t) = Ok (B "l" ++ rest) <->
  _compile_object (VTuple t) = Ok (B "t" ++ rest).
Proof.
  cbn [_compile_object]. unfold compile_list_with, compile_tuple_with.
  rewrite !compile_sequence_with. split.
  - intros (Hlt & encs & F & E). split; [exact Hlt|]. exists encs.
    split; [exact F|]. inversion E. reflexivity.
  - intros (Hlt & encs & F & E). split; [exact Hlt|]. exists encs.
    split; [exact F|]. inversion E. reflexivity.
Qed.

Lemma mapM_first_raise {A B} (f : A -> result B) (pre post : list A)
    (x : A) (e : exn) :
  List.Forall (fun p => is_ok (f p) = true) pre ->
  f x = Raise e ->
  mapM f (pre ++ x :: post) = Raise e.
Proof.
  intros F Hx. induction F as [|p pre Hp _ IH]; simpl.
  - rewrite Hx. reflexivity.
  - destruct (f p); [|discriminate Hp]. simpl. rewrite IH. reflexivity.
Qed.

(** X5.  The elements of a tuple or list are encoded from left to right and
    the first exception stops the encoding: when the elements before [x] are
    encoded and [x] raises [e], the whole sequence raises [e], whatever
    follows [x], and no bytes are returned. *)
Theorem compile_sequence_first_error (pre post : list value) (x : value)
    (e : exn) :
  len (pre ++ x :: post) < 2 ^ 32 ->
  List.Forall (fun p => is_ok (_compile_object p) = true) pre ->
  _compile_object x = Raise e ->
  _compile_object (VTuple (pre ++ x :: post)) = Raise e /\
  _compile_object (VList (pre ++ x :: post)) = Raise e.
Proof.
  intros Hlt F Hx. pose proof (len_nonneg (pre ++ x :: post)) as Hl.
  cbn [_compile_object]. unfold compile_tuple_with, compile_list_with.
  rewrite to_bytes_4_small by lia. cbn [bind].
  rewrite (mapM_first_raise _ pre post x e F Hx). split; reflexivity.
Qed.

Lemma compile_sequence_first_error_witness :
  _compile_object
    (VTuple ([VInt 1] ++ VOther (U "complex") :: [VInt (2 ^ 40)])) =
    Raise (Exn ValueError (U "Unknown type <class 'complex'>")) /\
  _compile_object
    (VList ([VInt 1] ++ VOther (U "complex") :: [VInt (2 ^ 40)])) =
    Raise (Exn ValueError (U "Unknown type <class 'complex'>")).
Proof.
  apply (compile_sequence_first_error [VInt 1] [VInt (2 ^ 40)]
           (VOther (U "complex"))).
  - reflexivity.
  - repeat constructor.
  - reflexivity.
Defined.

(** *** Code objects *)

Ltac next_field :=
  match goal with
  | |- bind ?m _ = _ => destruct m; cbn [bind]; [|reflexivity]
  end.

Lemma compile_code_object_as_fields (obb : code) :
  _compile_code_object obb =
  (fields <- mapM _compile_object (code_fields obb) ;;
   Ok (B "c" ++ List.concat fields)).
Proof.
  unfold _compile_code_object, compile_code_object_with, code_fields.
  cbn [mapM _compile_object].
  change (compile_tuple_with _compile_object) with _compile_tuple.
  do 16 next_field. reflexivity.
Qed.

(** X6.  A code object is encoded as the tag ['c'] followed by the encodings,
    as values, of its sixteen attributes in the fixed order argcount,
    posonlyargcount, kwonlyargcount, nlocals, stacksize, flags, code, consts,
    names, varnames, freevars, cellvars, filename, name, firstlineno,
    lnotab: the counts as ints, the code and the line table as byte strings,
    the five collections as tuples, the two names as texts. *)
Theorem compile_code_object_layout (obb : code) (bs : bytes) :
  _compile_object (VCode obb) = Ok bs <->
  exists fields,
    List.Forall2 (fun v e => _compile_object v = Ok e) (code_fields obb)
      fields /\
    List.length fields = 16%nat /\
    bs = B "c" ++ List.concat fields.
Proof.
  change (_compile_object (VCode obb)) with (_compile_code_object obb).
  rewrite compile_code_object_as_fields. split.
  - destruct (mapM _compile_object (code_fields obb)) as [fields|] eqn:Em;
      cbn [bind]; [|discriminate].
    intros E. inversion E. exists fields. apply mapM_Forall2 in Em.
    split; [exact Em|]. split; [|reflexivity].
    apply List.Forall2_length in Em. symmetry. exact Em.
  - intros (fields & F & _ & ->). apply mapM_Forall2 in F. rewrite F.
    reflexivity.
Qed.

(** *** The shape of an encoding *)

Lemma mapM_items_flatten (t : list (value * value)) (encs : list bytes) :
  mapM (compile_item_with _compile_object) t = Ok encs ->
  exists flat,
    List.Forall2 (fun v e => _compile_object v = Ok e) (flatten_items t)
      flat /\
    List.concat flat = List.concat encs.
Proof.
  revert encs. induction t as [|kv t IH]; intros encs E; simpl in E.
  - inversion E. exists []. split; [constructor|reflexivity].
  - unfold compile_item_with at 1 in E.
    destruct (_compile_object (fst kv)) as [k|] eqn:Ek; cbn [bind] in E;
      [|discriminate E].
    destruct (_compile_object (snd kv)) as [v|] eqn:Ev; cbn [bind] in E;
      [|discriminate E].
    destruct (mapM (compile_item_with _compile_object) t) as [encs'|] eqn:Em;
      cbn [bind] in E; [|discriminate E].
    inversion E. destruct (IH encs' eq_refl) as (flat & F & Hc).
    exists (k :: v :: flat). split.
    + unfold flatten_items. cbn [List.flat_map app].
      constructor; [exact Ek|]. constructor; [exact Ev|exact F].
    + cbn [List.concat]. rewrite Hc, <- List.app_assoc. reflexivity.
Qed.

(** What the bytes of an encoding look like, kind by kind. *)
Lemma compile_object_shape (v : value) (b : bytes) :
  _compile_object v = Ok b ->
  match v with
  | VInt n => b = B "i" ++ le_split 4 n
  | VBool x => b = B "i" ++ le_split 4 (int_of_bool x)
  | VBytes s => len s < 2 ^ 32 /\ b = B "b" ++ le_split 4 (len s) ++ s
  | VStr s =>
      exists encoded,
        len encoded < 2 ^ 32 /\
        b = B "s" ++ le_split 4 (len encoded) ++ encoded
  | VTuple t =>
      len t < 2 ^ 32 /\
      exists encs,
        List.Forall2 (fun x e => _compile_object x = Ok e) t encs /\
        b = B "t" ++ le_split 4 (len t) ++ List.concat encs
  | VList t =>
      len t < 2 ^ 32 /\
      exists encs,
        List.Forall2 (fun x e => _compile_object x = Ok e) t encs /\
        b = B "l" ++ le_split 4 (len t) ++ List.concat encs
  | VDict t =>
      len t < 2 ^ 32 /\
      exists encs,
        List.Forall2 (fun x e => _compile_object x = Ok e)
          (flatten_items t) encs /\
        b = B "d" ++ le_split 4 (len t) ++ List.concat encs
  | VNone => b = B "N"
  | VFloat x => b = B "f" ++ le_split 8 x
  | VCode obb =>
      exists encs,
        List.Forall2 (fun x e => _compile_object x = Ok e)
          (code_fields obb) encs /\
        b = B "c" ++ List.concat encs
  | VOther _ => False
  end.
Proof.
  destruct v; cbn [_compile_object]; intros E.
  - unfold _compile_int, to_bytes_signed in E.
    destruct (_ && _); inversion E. reflexivity.
  - unfold _compile_int, to_bytes_signed in E.
    destruct (_ && _); inversion E. reflexivity.
  - unfold _compile_bytestring in E. pose proof (len_nonneg s).
    destruct (Z.lt_ge_cases (len s) (2 ^ 32)) as [Hlt|Hge].
    2: { rewrite to_bytes_4_big in E by exact Hge. discriminate E. }
    rewrite to_bytes_4_small in E by lia. inversion E. auto.
  - unfold _compile_unicode_string in E.
    destruct (encode_utf8 s) as [encoded|]; [|discriminate E].
    cbn [bind] in E. pose proof (len_nonneg encoded).
    destruct (Z.lt_ge_cases (len encoded) (2 ^ 32)) as [Hlt|Hge].
    2: { rewrite to_bytes_4_big in E by exact Hge. discriminate E. }
    rewrite to_bytes_4_small in E by lia. inversion E.
    exists encoded. auto.
  - apply compile_sequence_with in E. exact E.
  - apply compile_sequence_with in E. exact E.
  - unfold compile_dict_with in E. pose proof (len_nonneg items).
    destruct (Z.lt_ge_cases (len items) (2 ^ 32)) as [Hlt|Hge].
    2: { rewrite to_bytes_4_big in E by exact Hge. discriminate E. }
    rewrite to_bytes_4_small in E by lia. cbn [bind] in E.
    destruct (mapM (compile_item_with _compile_object) items) as [encs|]
      eqn:Em; [|discriminate E].
    inversion E. split; [exact Hlt|].
    destruct (mapM_items_flatten items encs Em) as (flat & F & Hc).
    exists flat. split; [exact F|]. rewrite Hc. reflexivity.
  - inversion E. reflexivity.
  - inversion E. reflexivity.
  - change (compile_code_object_with _compile_object obb)
      with (_compile_code_object obb) in E.
    rewrite compile_code_object_as_fields in E.
    destruct (mapM _compile_object (code_fields obb)) as [fields|] eqn:Em;
      [|discriminate E].
    inversion E. exists fields. split; [|reflexivity].
    apply mapM_Forall2. exact Em.
  - discriminate E.
Qed.

(** X7.  The first byte of an encoding tells the kind of the object: ['i']
    for an int and for a bool, ['b'] bytes, ['s'] str, ['t'] tuple, ['l']
    list, ['d'] dict, ['N'] None, ['f'] float, ['c'] code object.  No
    encoding is empty and none starts with ['+'] or ['-']. *)
Theorem compile_object_tag (v : value) (bs : bytes) :
  _compile_object v = Ok bs ->
  exists t rest,
    tag v = Some t /\ bs = t :: rest /\ t <> Byte.x2b /\ t <> Byte.x2d.
Proof.
  intros E. apply compile_object_shape in E.
  destruct v; cbn [tag];
    repeat match goal with
           | H : _ /\ _ |- _ => destruct H
           | H : exists _, _ |- _ => destruct H
           | H : False |- _ => destruct H
           end; subst bs;
    (eexists; eexists; split; [reflexivity|]; split; [reflexivity|];
     split; discriminate).
Qed.

Lemma compile_object_tag_witness :
  exists t rest,
    tag (VBool true) = Some t /\
    B "i" ++ le_split 4 1 = t :: rest /\ t <> Byte.x2b /\ t <> Byte.x2d.
Proof. apply (compile_object_tag (VBool true)). reflexivity. Defined.

(** *** Encodings are self-delimiting *)

Lemma first_byte (v : value) (b : bytes) :
  _compile_object v = Ok b ->
  exists t rest, tag v = Some t /\ b = t :: rest.
Proof.
  intros E. apply compile_object_shape in E.
  destruct v; cbn [tag];
    repeat match goal with
           | H : _ /\ _ |- _ => destruct H
           | H : exists _, _ |- _ => destruct H
           | H : False |- _ => destruct H
           end; subst b;
    (eexists; eexists; split; reflexivity).
Qed.

Lemma same_tag (v1 v2 : value) (b1 b2 r1 r2 : bytes) :
  _compile_object v1 = Ok b1 -> _compile_object v2 = Ok b2 ->
  b1 ++ r1 = b2 ++ r2 -> tag v1 = tag v2.
Proof.
  intros E1 E2 E.
  destruct (first_byte v1 b1 E1) as (t1 & rest1 & T1 & ->).
  destruct (first_byte v2 b2 E2) as (t2 & rest2 & T2 & ->).
  inversion E. congruence.
Qed.

Lemma sequence_delimited (t1 : list value) :
  List.Forall delimited t1 ->
  forall encs1 t2 encs2 r1 r2,
    List.length t1 = List.length t2 ->
    List.Forall2 (fun x e => _compile_object x = Ok e) t1 encs1 ->
    List.Forall2 (fun x e => _compile_object x = Ok e) t2 encs2 ->
    List.concat encs1 ++ r1 = List.concat encs2 ++ r2 ->
    List.concat encs1 = List.concat encs2 /\ r1 = r2.
Proof.
  induction 1 as [|x1 t1 Hx _ IH]; intros encs1 t2 encs2 r1 r2 Hl F1 F2 E.
  - destruct t2; [|discriminate Hl]. inversion F1; inversion F2; subst.
    simpl in E. auto.
  - destruct t2 as [|x2 t2]; [discriminate Hl|].
    inversion F1 as [|? e1 ? encs1' E1 F1']; subst.
    inversion F2 as [|? e2 ? encs2' E2 F2']; subst.
    cbn [List.concat] in *. rewrite <- !List.app_assoc in E.
    destruct (Hx e1 x2 e2 _ _ E1 E2 E) as [-> E'].
    destruct (IH encs1' t2 encs2' r1 r2) as [-> ->]; auto.
Qed.

Lemma counted_delimited {X} (tagged : bytes) (c1 c2 : list X)
    (p1 p2 r1 r2 : bytes) :
  len c1 < 2 ^ 32 -> len c2 < 2 ^ 32 ->
  (tagged ++ le_split 4 (len c1) ++ p1) ++ r1 =
  (tagged ++ le_split 4 (len c2) ++ p2) ++ r2 ->
  List.length c1 = List.length c2 /\ p1 ++ r1 = p2 ++ r2.
Proof.
  intros H1 H2 E. rewrite <- !List.app_assoc in E.
  apply List.app_inv_head in E.
  apply app_same_length in E; [|rewrite !length_le_split; reflexivity].
  destruct E as [E1 E2]. split; [|exact E2].
  pose proof (len_nonneg c1). pose proof (len_nonneg c2).
  apply length_field_inj in E1; [|lia|lia]. unfold len in E1. lia.
Qed.

Lemma sized_delimited (tagged : bytes) (p1 p2 r1 r2 : bytes) :
  len p1 < 2 ^ 32 -> len p2 < 2 ^ 32 ->
  (tagged ++ le_split 4 (len p1) ++ p1) ++ r1 =
  (tagged ++ le_split 4 (len p2) ++ p2) ++ r2 ->
  tagged ++ le_split 4 (len p1) ++ p1 = tagged ++ le_split 4 (len p2) ++ p2 /\
  r1 = r2.
Proof.
  intros H1 H2 E.
  destruct (counted_delimited _ _ _ _ _ _ _ H1 H2 E) as [Hn E'].
  apply app_same_length in E'; [|exact Hn].
  destruct E' as [-> ->]. auto.
Qed.

Lemma elements_delimited {X} (tagged : bytes) (c1 c2 : list X)
    (t1 t2 : list value) (encs1 encs2 : list bytes) (r1 r2 : bytes) :
  List.Forall delimited t1 ->
  len c1 < 2 ^ 32 -> len c2 < 2 ^ 32 ->
  (List.length c1 = List.length c2 -> List.length t1 = List.length t2) ->
  List.Forall2 (fun x e => _compile_object x = Ok e) t1 encs1 ->
  List.Forall2 (fun x e => _compile_object x = Ok e) t2 encs2 ->
  (tagged ++ le_split 4 (len c1) ++ List.concat encs1) ++ r1 =
  (tagged ++ le_split 4 (len c2) ++ List.concat encs2) ++ r2 ->
  tagged ++ le_split 4 (len c1) ++ List.concat encs1 =
  tagged ++ le_split 4 (len c2) ++ List.concat encs2 /\ r1 = r2.
Proof.
  intros HP H1 H2 Hl F1 F2 E.
  destruct (counted_delimited _ _ _ _ _ _ _ H1 H2 E) as [Hn E'].
  destruct (sequence_delimited t1 HP encs1 t2 encs2 r1 r2 (Hl Hn) F1 F2 E')
    as [-> ->].
  unfold len. rewrite Hn. auto.
Qed.

Ltac shapes :=
  repeat match goal with
         | H : _compile_object _ = Ok _ |- _ =>
             apply compile_object_shape in H; cbn beta iota in H
         | H : _ /\ _ |- _ => destruct H
         | H : exists _, _ |- _ => destruct H
         | H : False |- _ => destruct H
         end;
  subst.

Ltac same_kind v2 :=
  match goal with
  | E1 : _compile_object ?v1 = Ok _, E2 : _compile_object v2 = Ok _,
    E : _ ++ _ = _ ++ _ |- _ =>
      let T := fresh "T" in
      pose proof (same_tag v1 v2 _ _ _ _ E1 E2 E) as T;
      destruct v2; try discriminate T; clear T
  end.

Lemma int_delimited (n : Z) : delimited (VInt n).
Proof.
  intros b1 v2 b2 r1 r2 E1 E2 E. same_kind v2; shapes;
    (apply app_same_length; [reflexivity|assumption]).
Qed.

Lemma bool_delimited (x : bool) : delimited (VBool x).
Proof.
  intros b1 v2 b2 r1 r2 E1 E2 E. same_kind v2; shapes;
    (apply app_same_length; [reflexivity|assumption]).
Qed.

Lemma none_delimited : delimited VNone.
Proof.
  intros b1 v2 b2 r1 r2 E1 E2 E. same_kind v2; shapes.
  apply app_same_length; [reflexivity|assumption].
Qed.

Lemma float_delimited (x : Z) : delimited (VFloat x).
Proof.
  intros b1 v2 b2 r1 r2 E1 E2 E. same_kind v2; shapes.
  apply app_same_length; [reflexivity|assumption].
Qed.

Lemma bytes_delimited (s : bytes) : delimited (VBytes s).
Proof.
  intros b1 v2 b2 r1 r2 E1 E2 E. same_kind v2; shapes.
  apply sized_delimited; assumption.
Qed.

Lemma str_delimited (s : str) : delimited (VStr s).
Proof.
  intros b1 v2 b2 r1 r2 E1 E2 E. same_kind v2; shapes.
  apply sized_delimited; assumption.
Qed.

Lemma tuple_delimited (t : list value) :
  List.Forall delimited t -> delimited (VTuple t).
Proof.
  intros HP b1 v2 b2 r1 r2 E1 E2 E. same_kind v2; shapes.
  eapply elements_delimited; eauto.
Qed.

Lemma list_delimited (t : list value) :
  List.Forall delimited t -> delimited (VList t).
Proof.
  intros HP b1 v2 b2 r1 r2 E1 E2 E. same_kind v2; shapes.
  eapply elements_delimited; eauto.
Qed.

Lemma length_flatten_items (t : list (value * value)) :
  List.length (flatten_items t) = (2 * List.length t)%nat.
Proof. induction t; simpl in *; lia. Qed.

Lemma dict_delimited (t : list (value * value)) :
  List.Forall (fun kv => delimited (fst kv) /\ delimited (snd kv)) t ->
  delimited (VDict t).
Proof.
  intros HP b1 v2 b2 r1 r2 E1 E2 E. same_kind v2; shapes.
  apply (elements_delimited (B "d") t items (flatten_items t)
           (flatten_items items)); try assumption.
  - clear - HP. induction HP as [|kv t [Hk Hv] _ IH]; [constructor|].
    unfold flatten_items. cbn [List.flat_map app].
    constructor; [exact Hk|]. constructor; [exact Hv|exact IH].
  - rewrite !length_flatten_items. lia.
Qed.

Lemma code_delimited (obb : code) :
  List.Forall delimited (co_consts obb) ->
  List.Forall delimited (co_names obb) ->
  List.Forall delimited (co_varnames obb) ->
  List.Forall delimited (co_freevars obb) ->
  List.Forall delimited (co_cellvars obb) ->
  delimited (VCode obb).
Proof.
  intros H1 H2 H3 H4 H5 b1 v2 b2 r1 r2 E1 E2 E. same_kind v2; shapes.
  rewrite <- !List.app_assoc in E. apply List.app_inv_head in E.
  match goal with
  | F1 : List.Forall2 _ (code_fields obb) ?e1,
    F2 : List.Forall2 _ (code_fields ?obb2) ?e2,
    E' : List.concat ?e1 ++ _ = List.concat ?e2 ++ _ |- _ =>
      destruct (sequence_delimited (code_fields obb)) with
        (encs1 := e1) (t2 := code_fields obb2) (encs2 := e2)
        (r1 := r1) (r2 := r2) as [Hc Hr];
        [|reflexivity|exact F1|exact F2|exact E'|]
  end.
  - unfold code_fields.
    repeat (apply List.Forall_cons;
            [solve [auto using int_delimited, bytes_delimited, str_delimited,
                      tuple_delimited]|]).
    apply List.Forall_nil.
  - rewrite Hc, Hr. split; reflexivity.
Qed.

Lemma all_delimited (v : value) : delimited v.
Proof.
  induction v using value_ind;
    auto using int_delimited, bool_delimited, none_delimited, float_delimited,
      bytes_delimited, str_delimited, tuple_delimited, list_delimited,
      dict_delimited, code_delimited.
  intros b1 v2 b2 r1 r2 E1. discriminate E1.
Qed.

(** X8.  Encodings are self-delimiting: if the encoding of one object
    followed by some bytes equals the encoding of another object followed by
    some bytes, the two encodings are equal and so are the bytes that follow.
    No encoding is a proper prefix of another, so a reader can tell where
    each encoded object of a sequence ends. *)
Theorem compile_object_self_delimiting (v1 v2 : value)
    (b1 b2 r1 r2 : bytes) :
  _compile_object v1 = Ok b1 ->
  _compile_object v2 = Ok b2 ->
  b1 ++ r1 = b2 ++ r2 ->
  b1 = b2 /\ r1 = r2.
Proof. intros E1 E2 E. exact (all_delimited v1 b1 v2 b2 r1 r2 E1 E2 E). Qed.

Lemma compile_object_self_delimiting_witness :
  B "i" ++ le_split 4 1 = B "i" ++ le_split 4 1 /\ B "N" = B "N".
Proof.
  apply (compile_object_self_delimiting (VInt 1) (VBool true)
           (B "i" ++ le_split 4 1) (B "i" ++ le_split 4 1) (B "N") (B "N"));
    reflexivity.
Defined.

(** *** [compile_kyc]: failures *)

Lemma split_from_nonempty (sep : str) (k : nat) (cur s : str) :
  split_from sep k cur s <> [].
Proof.
  revert k cur. induction s as [|c s IH]; intros k cur; cbn [split_from].
  - discriminate.
  - destruct k; [|apply IH].
    destruct (startswith (c :: s) sep); [discriminate|apply IH].
Qed.

Lemma last_item_ok {A} (l : list A) :
  l <> [] -> exists x, last_item l = Ok x.
Proof.
  intros Hl. unfold last_item. destruct (List.rev l) as [|x r] eqn:E.
  - apply (f_equal (@List.rev A)) in E. rewrite List.rev_involutive in E.
    contradiction.
  - exists x. reflexivity.
Qed.

Section Failures.
Variable h : host.

(** The name that [path.split(path_sep)[-1]] gives always exists. *)
Lemma split_path_total (path : str) :
  exists parts last,
    split path (path_sep h) = Ok parts /\ last_item parts = Ok last.
Proof.
  pose proof (path_sep_nonempty h) as Hs. unfold split.
  destruct (path_sep h) as [|c sep] eqn:E; [congruence|].
  destruct (last_item_ok (split_from (c :: sep) 0 [] path)) as [last Hl].
  - apply split_from_nonempty.
  - eexists. exists last. split; [reflexivity|exact Hl].
Qed.

Lemma split_nonempty_sep (s ending : str) :
  ending <> [] -> exists pieces, split s ending = Ok pieces.
Proof.
  intros He. unfold split. destruct ending; [congruence|].
  eexists. reflexivity.
Qed.

(** A file name free of the separator is the last component of its path,
    and what precedes it is the directory. *)
Lemma split_in_directory (dir name : str) :
  contains name (path_sep h) = false ->
  exists parts,
    split (in_directory h dir name) (path_sep h) = Ok parts /\
    last_item parts = Ok name /\
    join (path_sep h) (but_last parts) = dir.
Proof.
  intros Hname. destruct dir as [|c dir'] eqn:Ed; unfold in_directory.
  - exists [name]. split; [|split; reflexivity].
    apply split_absent; [apply path_sep_nonempty|exact Hname].
  - rewrite <- Ed.
    apply split_last_occurrence;
      [apply path_sep_nonempty|apply path_sep_unbordered|exact Hname].
Qed.

Lemma compile_kyc_raise_before_write (path ending : str) (full : bool)
    (fs : files h) (e : exn) :
  compile_kyc_pure h path ending full fs = Raise e ->
  compile_kyc h path ending full fs = (Raise e, fs).
Proof. intros E. unfold compile_kyc. rewrite E. reflexivity. Qed.
End Failures.

(** X9.  With an empty extension, [compile_kyc] raises the [ValueError]
    "empty separator" of [last.split(ending)] for every path, before the
    file is read; nothing is written. *)
Theorem compile_kyc_empty_ending (h : host) (path : str) (full : bool)
    (fs : files h) :
  compile_kyc h path [] full fs =
  (Raise (Exn ValueError (U "empty separator")), fs).
Proof.
  apply compile_kyc_raise_before_write. unfold compile_kyc_pure.
  destruct (split_path_total h path) as (parts & last & E1 & E2).
  rewrite E1. cbn [bind]. rewrite E2. reflexivity.
Qed.

(** X10.  When the input cannot be read, [compile_kyc] raises the exception
    of the read, unchanged, and writes nothing. *)
Theorem compile_kyc_unreadable (h : host) (path ending : str) (full : bool)
    (fs : files h) (e : exn) :
  ending <> [] ->
  read_text h fs path = Raise e ->
  compile_kyc h path ending full fs = (Raise e, fs).
Proof.
  intros He Hr. apply compile_kyc_raise_before_write. unfold compile_kyc_pure.
  destruct (split_path_total h path) as (parts & last & E1 & E2).
  rewrite E1. cbn [bind]. rewrite E2. cbn [bind].
  destruct (split_nonempty_sep last ending He) as [pieces ->].
  cbn [bind]. rewrite Hr. reflexivity.
Qed.

Lemma compile_kyc_unreadable_witness :
  compile_kyc toy (U "dir/missing.py") (U ".py") false toy_files =
  (Raise (Exn OSError (U "[Errno 2] No such file or directory")), toy_files).
Proof.
  apply (compile_kyc_unreadable toy (U "dir/missing.py") (U ".py") false
           toy_files).
  - discriminate.
  - reflexivity.
Defined.

(** X11.  When the [compile] builtin rejects the source, with a
    [SyntaxError] or any other exception, [compile_kyc] raises that
    exception unchanged and writes nothing.  The file name handed to
    [compile] is the bare file name, or the whole path when
    [full_pathname] is set. *)
Theorem compile_kyc_syntax_error (h : host) (dir name ending data : str)
    (full : bool) (fs : files h) (e : exn) :
  contains name (path_sep h) = false ->
  ending <> [] ->
  read_text h fs (in_directory h dir name) = Ok data ->
  compile h data (if full then in_directory h dir name else name) = Raise e ->
  compile_kyc h (in_directory h dir name) ending full fs = (Raise e, fs).
Proof.
  intros Hn He Hr Hc. apply compile_kyc_raise_before_write.
  unfold compile_kyc_pure.
  destruct (split_in_directory h dir name Hn) as (parts & E1 & E2 & _).
  rewrite E1. cbn [bind]. rewrite E2. cbn [bind].
  destruct (split_nonempty_sep name ending He) as [pieces ->].
  cbn [bind]. rewrite Hr. cbn [bind]. rewrite Hc. reflexivity.
Qed.

Lemma compile_kyc_syntax_error_witness :
  compile_kyc rejecting (U "dir/foo.py") (U ".py") false toy_files =
  (Raise (Exn SyntaxError (U "invalid syntax (foo.py, line 1)")), toy_files).
Proof.
  apply (compile_kyc_syntax_error rejecting (U "dir") (U "foo.py") (U ".py")
           [] false toy_files).
  - reflexivity.
  - discriminate.
  - reflexivity.
  - reflexivity.
Defined.

(** X12.  When the code object that [compile] returns cannot be encoded (a
    constant of a kind outside the format, an integer constant beyond 32
    bits, ...), [compile_kyc] raises the exception of the encoder and writes
    nothing: no partial file is left. *)
Theorem compile_kyc_unencodable (h : host) (dir name ending data : str)
    (full : bool) (fs : files h) (compiled : code) (e : exn) :
  contains name (path_sep h) = false ->
  ending <> [] ->
  read_text h fs (in_directory h dir name) = Ok data ->
  compile h data (if full then in_directory h dir name else name) =
    Ok compiled ->
  _compile_code_object compiled = Raise e ->
  compile_kyc h (in_directory h dir name) ending full fs = (Raise e, fs).
Proof.
  intros Hn He Hr Hc Henc. apply compile_kyc_raise_before_write.
  unfold compile_kyc_pure.
  destruct (split_in_directory h dir name Hn) as (parts & E1 & E2 & _).
  rewrite E1. cbn [bind]. rewrite E2. cbn [bind].
  destruct (split_nonempty_sep name ending He) as [pieces ->].
  cbn [bind]. rewrite Hr. cbn [bind]. rewrite Hc. cbn [bind].
  rewrite Henc. reflexivity.
Qed.

Lemma compile_kyc_unencodable_witness :
  compile_kyc (toy_compiling (fun _ f => Ok (big_constant f)))
    (U "dir/foo.py") (U ".py") false toy_files =
  (Raise (Exn OverflowError (U "int too big to convert")), toy_files).
Proof.
  apply (compile_kyc_unencodable
           (toy_compiling (fun _ f => Ok (big_constant f)))
           (U "dir") (U "foo.py") (U ".py") [] false toy_files
           (big_constant (U "foo.py"))).
  - reflexivity.
  - discriminate.
  - reflexivity.
  - reflexivity.
  - reflexivity.
Defined.

(** *** [compile_kyc]: the file written and the name compiled under *)

Lemma compile_kyc_target (h : host) (path ending first last filename : str)
    (parts pieces : list str) (full : bool) (fs fs' : files h) (b : bytes) :
  split path (path_sep h) = Ok parts ->
  last_item parts = Ok last ->
  join (path_sep h) (but_last parts) = first ->
  split last ending = Ok pieces ->
  join ending (but_last pieces) = filename ->
  compile_kyc h path ending full fs = (Ok b, fs') ->
  write_bytes h fs
    (directory_or_dot first ++ path_sep h ++ filename ++ U ".kyc") b =
  (Ok tt, fs').
Proof.
  intros S1 L1 J1 S2 J2 E. apply compile_kyc_ok in E.
  destruct E as (parts' & last' & pieces' & _ & _ & _ & _ & _ &
                 E1 & E2 & E3 & _ & _ & _ & _ & _ & _ & Ew).
  rewrite S1 in E1. inversion E1; subst parts'.
  rewrite L1 in E2. inversion E2; subst last'.
  rewrite S2 in E3. inversion E3; subst pieces'.
  rewrite J1, J2 in Ew. exact Ew.
Qed.

Lemma contains_nil (ending : str) : ending <> [] -> contains [] ending = false.
Proof. destruct ending; [congruence|reflexivity]. Qed.

(** X13.  A file directly under the root, [/name], has an empty directory
    part, which [compile_kyc] replaces by ["."]: its output goes to the
    working directory and not to the root. *)
Theorem kyc_of_root_file_goes_to_cwd (h : host) (stem ending : str)
    (full : bool) (fs fs' : files h) (b : bytes) :
  contains (stem ++ ending) (path_sep h) = false ->
  ending <> [] ->
  unbordered ending = true ->
  compile_kyc h (path_sep h ++ stem ++ ending) ending full fs = (Ok b, fs') ->
  write_bytes h fs (U "." ++ path_sep h ++ stem ++ U ".kyc") b = (Ok tt, fs').
Proof.
  intros Hn He Hu E.
  destruct (split_last_occurrence [] (path_sep h) (stem ++ ending)
              (path_sep_nonempty h) (path_sep_unbordered h) Hn)
    as (parts & S1 & L1 & J1).
  destruct (split_last_occurrence stem ending [] He Hu (contains_nil _ He))
    as (pieces & S2 & _ & J2).
  rewrite List.app_nil_r in S2.
  exact (compile_kyc_target h _ _ [] _ stem parts pieces full fs fs' b
           S1 L1 J1 S2 J2 E).
Qed.

Lemma kyc_of_root_file_goes_to_cwd_witness :
  exists b fs',
    compile_kyc toy (U "/foo.py") (U ".py") false [(U "/foo.py", [])] =
      (Ok b, fs') /\
    write_bytes toy [(U "/foo.py", [])] (U "./foo.kyc") b = (Ok tt, fs').
Proof.
  eexists. eexists. split; [vm_compute; reflexivity|].
  apply (kyc_of_root_file_goes_to_cwd toy (U "foo") (U ".py") false).
  - reflexivity.
  - discriminate.
  - reflexivity.
  - vm_compute. reflexivity.
Defined.

Lemma path_views (h : host) (path : str) :
  exists parts,
    split path (path_sep h) = Ok parts /\
    last_item parts = Ok (basename h path) /\
    join (path_sep h) (but_last parts) = dirname h path.
Proof.
  destruct (split_path_total h path) as (parts & last & E1 & E2).
  exists parts. unfold basename, dirname. rewrite E1, E2. auto.
Qed.

(** X14.  When the extension does not occur in the last component of the
    path, nothing of the name is kept: the output is the file [.kyc] in the
    directory part of the path, or in ["."] when that part is empty, as it
    is for a bare file name and for a file directly under the root. *)
Theorem kyc_of_name_without_ending (h : host) (path ending : str)
    (full : bool) (fs fs' : files h) (b : bytes) :
  ending <> [] ->
  contains (basename h path) ending = false ->
  compile_kyc h path ending full fs = (Ok b, fs') ->
  write_bytes h fs
    (directory_or_dot (dirname h path) ++ path_sep h ++ U ".kyc") b =
  (Ok tt, fs').
Proof.
  intros He Hc E.
  destruct (path_views h path) as (parts & S1 & L1 & J1).
  exact (compile_kyc_target h _ _ _ _ [] parts [basename h path] full fs fs'
           b S1 L1 J1 (split_absent _ ending He Hc) eq_refl E).
Qed.

Lemma kyc_of_name_without_ending_witness :
  exists b fs',
    compile_kyc toy (U "/notes") (U ".py") false [(U "/notes", [])] =
      (Ok b, fs') /\
    write_bytes toy [(U "/notes", [])] (U "./.kyc") b = (Ok tt, fs').
Proof.
  eexists. eexists. split; [vm_compute; reflexivity|].
  apply (kyc_of_name_without_ending toy (U "/notes") (U ".py") false).
  - discriminate.
  - reflexivity.
  - vm_compute. reflexivity.
Defined.

(** X15.  The output is named after what precedes the last occurrence of the
    extension in the file name; what follows that occurrence is dropped
    (the extension being non-empty and unbordered, as [".py"] is). *)
Theorem kyc_name_drops_what_follows_ending (h : host)
    (dir stem ending rest : str) (full : bool) (fs fs' : files h)
    (b : bytes) :
  contains (stem ++ ending ++ rest) (path_sep h) = false ->
  ending <> [] ->
  unbordered ending = true ->
  contains rest ending = false ->
  compile_kyc h (in_directory h dir (stem ++ ending ++ rest)) ending full fs =
    (Ok b, fs') ->
  write_bytes h fs
    (directory_or_dot dir ++ path_sep h ++ stem ++ U ".kyc") b = (Ok tt, fs').
Proof.
  intros Hn He Hu Hr E.
  destruct (split_in_directory h dir _ Hn) as (parts & S1 & L1 & J1).
  destruct (split_last_occurrence stem ending rest He Hu Hr)
    as (pieces & S2 & _ & J2).
  exact (compile_kyc_target h _ _ dir _ stem parts pieces full fs fs' b
           S1 L1 J1 S2 J2 E).
Qed.

Lemma kyc_name_drops_what_follows_ending_witness :
  exists b fs',
    compile_kyc toy (U "dir/a.py.py.bak") (U ".py") false
      [(U "dir/a.py.py.bak", [])] = (Ok b, fs') /\
    write_bytes toy [(U "dir/a.py.py.bak", [])] (U "dir/a.py.kyc") b =
      (Ok tt, fs').
Proof.
  eexists. eexists. split; [vm_compute; reflexivity|].
  apply (kyc_name_drops_what_follows_ending toy (U "dir") (U "a.py") (U ".py")
           (U ".bak") false).
  - reflexivity.
  - discriminate.
  - reflexivity.
  - reflexivity.
  - vm_compute. reflexivity.
Defined.

(** X16.  A successful [compile_kyc] has read the file at the path given and
    compiled its text under the bare file name, or under the whole path when
    [full_pathname] is set; the bytes it returns end with the encoding of the
    code object obtained, after a header of 78 bytes. *)
Theorem compile_kyc_display_name (h : host) (dir name ending : str)
    (full : bool) (fs fs' : files h) (b : bytes) :
  contains name (path_sep h) = false ->
  compile_kyc h (in_directory h dir name) ending full fs = (Ok b, fs') ->
  exists data compiled unit_bytes,
    read_text h fs (in_directory h dir name) = Ok data /\
    compile h data (if full then in_directory h dir name else name) =
      Ok compiled /\
    _compile_code_object compiled = Ok unit_bytes /\
    List.skipn 78 b = unit_bytes /\
    len b = 78 + len unit_bytes.
Proof.
  intros Hn E. apply compile_kyc_ok in E.
  destruct E as (parts & last & pieces & data & compiled & unit_bytes &
                 version & comment & E1 & E2 & _ & E4 & E5 & E6 & E7 & E8 &
                 Eb & _).
  destruct (split_in_directory h dir name Hn) as (parts' & S1 & L1 & _).
  rewrite S1 in E1. inversion E1; subst parts'.
  rewrite L1 in E2. inversion E2; subst last.
  exists data, compiled, unit_bytes.
  split; [exact E4|]. split; [exact E5|]. split; [exact E6|].
  apply to_bytes_1_ok in E7. destruct E7 as (_ & -> & _).
  assert (Hc : List.length comment = 63%nat).
  { rewrite comment_encoding in E8. inversion E8. reflexivity. }
  assert (Hh : exists header,
             b = header ++ unit_bytes /\ List.length header = 78%nat).
  { exists (B "KYCA" ++ [byte.of_Z (version_minor h)] ++ B "K" ++ B "L" ++
            header_zeros ++ comment).
    split.
    - rewrite Eb, <- !List.app_assoc. reflexivity.
    - rewrite !List.length_app, Hc. reflexivity. }
  destruct Hh as (header & -> & Hl). split.
  - rewrite List.skipn_app, List.skipn_all2 by lia.
    rewrite Hl, Nat.sub_diag. reflexivity.
  - unfold len. rewrite List.length_app, Hl. lia.
Qed.

Lemma compile_kyc_display_name_witness :
  exists b fs',
    compile_kyc toy (U "dir/foo.py") (U ".py") true toy_files = (Ok b, fs') /\
    exists data compiled unit_bytes,
      read_text toy toy_files (U "dir/foo.py") = Ok data /\
      compile toy data (U "dir/foo.py") = Ok compiled /\
      _compile_code_object compiled = Ok unit_bytes /\
      List.skipn 78 b = unit_bytes /\
      len b = 78 + len unit_bytes.
Proof.
  eexists. eexists. split; [vm_compute; reflexivity|].
  eapply (compile_kyc_display_name toy (U "dir") (U "foo.py") (U ".py") true
            toy_files).
  - reflexivity.
  - vm_compute. reflexivity.
Defined.

(** *** Hexadecimal responses *)

Lemma nibbles (b : byte) :
  0 <= Z.shiftr (byte.unsigned b) 4 < 16 /\
  0 <= Z.land (byte.unsigned b) 15 < 16 /\
  byte.unsigned b =
    16 * Z.shiftr (byte.unsigned b) 4 + Z.land (byte.unsigned b) 15.
Proof.
  pose proof (byte.unsigned_range b) as Hb. change (2 ^ 8) with 256 in Hb.
  rewrite Z.shiftr_div_pow2 by lia.
  change 15 with (Z.ones 4). rewrite Z.land_ones by lia.
  change (2 ^ 4) with 16. Z.div_mod_to_equations. lia.
Qed.

Lemma hex_digit_range (d : Z) :
  0 <= d < 16 -> is_hex_digit (hex_digit d) = true.
Proof.
  intros Hd. unfold is_hex_digit, hex_digit.
  destruct (Z.ltb_spec d 10).
  - apply orb_true_iff. left. apply andb_true_iff. split; apply Z.leb_le; lia.
  - apply orb_true_iff. right. apply andb_true_iff.
    split; apply Z.leb_le; lia.
Qed.

Lemma hex_digit_inj (d1 d2 : Z) :
  0 <= d1 < 16 -> 0 <= d2 < 16 -> hex_digit d1 = hex_digit d2 -> d1 = d2.
Proof.
  unfold hex_digit. intros H1 H2.
  destruct (Z.ltb_spec d1 10); destruct (Z.ltb_spec d2 10); lia.
Qed.

Lemma hex_byte_inj (b1 b2 : byte) : hex_byte b1 = hex_byte b2 -> b1 = b2.
Proof.
  unfold hex_byte. intros E. inversion E as [[Ehi Elo]].
  destruct (nibbles b1) as (H1 & L1 & U1).
  destruct (nibbles b2) as (H2 & L2 & U2).
  apply hex_digit_inj in Ehi; [|assumption|assumption].
  apply hex_digit_inj in Elo; [|assumption|assumption].
  apply byte.unsigned_inj. lia.
Qed.

Lemma hex_length (bs : bytes) :
  List.length (hex bs) = (2 * List.length bs)%nat.
Proof. unfold hex. induction bs; simpl in *; lia. Qed.

Lemma hex_digits (bs : bytes) :
  List.forallb is_hex_digit (hex bs) = true.
Proof.
  unfold hex. induction bs as [|b bs IH]; [reflexivity|].
  cbn [List.flat_map hex_byte app List.forallb].
  destruct (nibbles b) as (H1 & L1 & _).
  rewrite !hex_digit_range by assumption. exact IH.
Qed.

Lemma hex_inj (bs1 bs2 : bytes) : hex bs1 = hex bs2 -> bs1 = bs2.
Proof.
  unfold hex. revert bs2.
  induction bs1 as [|b1 bs1 IH]; intros [|b2 bs2] E; try reflexivity;
    try discriminate E.
  cbn [List.flat_map hex_byte app] in E.
  inversion E as [[Ehi Elo Erest]].
  f_equal; [|apply IH; exact Erest].
  apply hex_byte_inj. unfold hex_byte. congruence.
Qed.

(** X17.  The hexadecimal form in which the daemon and the one-shot mode
    print bytes has two characters per byte, all of them among [0-9a-f],
    and determines the bytes: two different byte strings are never printed
    alike. *)
Theorem hex_faithful (bs1 bs2 : bytes) :
  List.length (hex bs1) = (2 * List.length bs1)%nat /\
  List.forallb is_hex_digit (hex bs1) = true /\
  (hex bs1 = hex bs2 <-> bs1 = bs2).
Proof.
  split; [apply hex_length|]. split; [apply hex_digits|].
  split; [apply hex_inj|intros ->; reflexivity].
Qed.

(** *** Request lines *)

Lemma flush_tokens (cur : str) (acc : list str) :
  List.forallb (fun c => negb (isspace c)) cur = true ->
  List.Forall
    (fun tok => tok <> [] /\
                List.forallb (fun c => negb (isspace c)) tok = true) acc ->
  List.Forall
    (fun tok => tok <> [] /\
                List.forallb (fun c => negb (isspace c)) tok = true)
    (flush cur acc).
Proof.
  intros Hc Ha. destruct cur as [|c cur]; [exact Ha|].
  cbn [flush]. constructor; [|exact Ha]. split.
  - intros E. apply (f_equal (@List.length Z)) in E.
    rewrite List.length_rev in E. discriminate E.
  - rewrite List.forallb_forall in *. intros x Hx. apply Hc.
    apply List.in_rev. exact Hx.
Qed.

Lemma split_ws_from_tokens (s cur : str) :
  List.forallb (fun c => negb (isspace c)) cur = true ->
  List.Forall
    (fun tok => tok <> [] /\
                List.forallb (fun c => negb (isspace c)) tok = true)
    (split_ws_from cur s).
Proof.
  revert cur. induction s as [|c s IH]; intros cur Hc; cbn [split_ws_from].
  - apply flush_tokens; [exact Hc|constructor].
  - destruct (isspace c) eqn:Ec.
    + apply flush_tokens; [exact Hc|]. apply IH. reflexivity.
    + apply IH. cbn [List.forallb]. rewrite Ec. exact Hc.
Qed.

(** X18.  The tokens into which the daemon splits a request line are never
    empty and never hold a white-space character; so the path of a request
    is cut at its first white space and a file whose path holds a space
    cannot be asked for. *)
Theorem request_tokens (data : str) :
  List.Forall
    (fun tok => tok <> [] /\
                List.forallb (fun c => negb (isspace c)) tok = true)
    (split_ws data).
Proof. apply split_ws_from_tokens. reflexivity. Qed.

(** *** The daemon: responses *)

Lemma hex_app (a b : bytes) : hex (a ++ b) = hex a ++ hex b.
Proof. unfold hex. apply List.flat_map_app. Qed.

(** X19.  A request [c path], with or without further words after the path,
    for which [compile_kyc] returns bytes is answered with the line [C]
    followed by those bytes in hexadecimal, which starts with [4b594341]
    (["KYCA"]); the loop then goes on with the next line, in the file system
    that the compilation left. *)
Theorem daemon_success_response (h : host) (fs fs' : files h)
    (data path : str) (args rest : list str) (b : bytes) :
  split_ws data = U "c" :: path :: args ->
  compile_kyc h path (U ".py") false fs = (Ok b, fs') ->
  loop_body h data fs = (Ok (U "C " ++ hex b), fs') /\
  List.firstn 8 (hex b) = U "4b594341" /\
  loop h (data :: rest) fs =
    ((U "C " ++ hex b) :: fst (fst (loop h rest fs')),
     snd (fst (loop h rest fs')), snd (loop h rest fs')).
Proof.
  intros Hs Hc.
  assert (E : loop_body h data fs = (Ok (U "C " ++ hex b), fs')).
  { rewrite (loop_body_compile h data path args fs Hs), Hc. reflexivity. }
  split; [exact E|]. split; [|apply loop_cons_ok; exact E].
  apply compile_kyc_ok in Hc.
  destruct Hc as (parts & last & pieces & text & compiled & code_object &
                  version & comment & _ & _ & _ & _ & _ & _ & _ & _ & -> & _).
  rewrite hex_app. reflexivity.
Qed.

Lemma daemon_success_response_witness :
  exists b fs',
    compile_kyc toy (U "dir/foo.py") (U ".py") false toy_files = (Ok b, fs') /\
    loop_body toy (U "c dir/foo.py ignored" ++ newline) toy_files =
      (Ok (U "C " ++ hex b), fs') /\
    List.firstn 8 (hex b) = U "4b594341" /\
    loop toy [U "c dir/foo.py ignored" ++ newline] toy_files =
      ((U "C " ++ hex b) :: fst (fst (loop toy [] fs')),
       snd (fst (loop toy [] fs')), snd (loop toy [] fs')).
Proof.
  eexists. eexists. split; [vm_compute; reflexivity|].
  apply (daemon_success_response toy toy_files _
           (U "c dir/foo.py ignored" ++ newline) (U "dir/foo.py")
           [U "ignored"] []).
  - reflexivity.
  - vm_compute. reflexivity.
Defined.

(** X20.  A request [c path] for which [compile_kyc] raises an exception is
    answered with the line [e] followed by the UTF-8 bytes of the message of
    the exception in hexadecimal, and the loop goes on with the next
    line. *)
Theorem daemon_error_response (h : host) (fs fs' : files h)
    (data path : str) (args rest : list str) (e : exn) (msg : bytes) :
  split_ws data = U "c" :: path :: args ->
  compile_kyc h path (U ".py") false fs = (Raise e, fs') ->
  encode_utf8 (exn_str e) = Ok msg ->
  loop_body h data fs = (Ok (U "e " ++ hex msg), fs') /\
  loop h (data :: rest) fs =
    ((U "e " ++ hex msg) :: fst (fst (loop h rest fs')),
     snd (fst (loop h rest fs')), snd (loop h rest fs')).
Proof.
  intros Hs Hc Hm.
  assert (E : loop_body h data fs = (Ok (U "e " ++ hex msg), fs')).
  { rewrite (loop_body_compile h data path args fs Hs), Hc, Hm.
    reflexivity. }
  split; [exact E|apply loop_cons_ok; exact E].
Qed.

Lemma daemon_error_response_witness :
  loop_body rejecting (U "c dir/foo.py" ++ newline) toy_files =
    (Ok (U "e " ++ hex (B "invalid syntax (foo.py, line 1)")), toy_files) /\
  loop rejecting [U "c dir/foo.py" ++ newline; U "quit" ++ newline]
    toy_files =
    ((U "e " ++ hex (B "invalid syntax (foo.py, line 1)")) ::
       fst (fst (loop rejecting [U "quit" ++ newline] toy_files)),
     snd (fst (loop rejecting [U "quit" ++ newline] toy_files)),
     snd (loop rejecting [U "quit" ++ newline] toy_files)).
Proof.
  apply (daemon_error_response rejecting toy_files toy_files
           (U "c dir/foo.py" ++ newline) (U "dir/foo.py") []
           [U "quit" ++ newline]
           (Exn SyntaxError (U "invalid syntax (foo.py, line 1)"))).
  - reflexivity.
  - reflexivity.
  - reflexivity.
Defined.

(** X21.  A line whose first word is anything but [c] (the test is
    case-sensitive) is answered with the line [u], whatever follows the
    word; the file system is not touched and the loop goes on. *)
Theorem daemon_unknown_command (h : host) (fs : files h)
    (data command : str) (args rest : list str) :
  split_ws data = command :: args ->
  command <> U "c" ->
  loop_body h data fs = (Ok (U "u"), fs) /\
  loop h (data :: rest) fs =
    (U "u" :: fst (fst (loop h rest fs)), snd (fst (loop h rest fs)),
     snd (loop h rest fs)).
Proof.
  intros Hs Hc.
  pose proof (loop_body_unknown h data command args fs Hs Hc) as E.
  split; [exact E|apply loop_cons_ok; exact E].
Qed.

Lemma daemon_unknown_command_witness :
  loop_body toy (U "C dir/foo.py" ++ newline) toy_files =
    (Ok (U "u"), toy_files) /\
  loop toy [U "C dir/foo.py" ++ newline] toy_files =
    (U "u" :: fst (fst (loop toy [] toy_files)),
     snd (fst (loop toy [] toy_files)), snd (loop toy [] toy_files)).
Proof.
  apply (daemon_unknown_command toy toy_files (U "C dir/foo.py" ++ newline)
           (U "C") [U "dir/foo.py"] []).
  - reflexivity.
  - discriminate.
Defined.

(** *** The daemon: the run as a whole *)

Section Runs.
Variable h : host.

Lemma loop_count (stdin : list str) (fs : files h) :
  (List.length (fst (fst (loop h stdin fs))) <= List.length stdin)%nat /\
  (snd (fst (loop h stdin fs)) = None <->
   List.length (fst (fst (loop h stdin fs))) = List.length stdin).
Proof.
  revert fs. induction stdin as [|data rest IH]; intros fs; cbn [loop].
  - simpl. split; [lia|]. split; reflexivity.
  - destruct (loop_body h data fs) as [[line|e] fs1].
    + specialize (IH fs1). destruct (loop h rest fs1) as [[out e] fs2].
      cbn [fst snd List.length] in *. destruct IH as [IH1 IH2].
      split; [lia|]. rewrite IH2. lia.
    + cbn [fst snd List.length]. split; [lia|].
      split; [discriminate|discriminate].
Qed.

Lemma encode_from_raise (pos : nat) (s : str) (e : exn) :
  encode_from pos s = Raise e -> exn_class e = UnicodeEncodeError.
Proof.
  revert pos. induction s as [|c s IH]; intros pos E; cbn [encode_from] in E.
  - discriminate E.
  - destruct (is_surrogate c).
    + inversion E. reflexivity.
    + destruct (encode_from (S pos) s) eqn:Es; cbn [bind] in E;
        [discriminate E|].
      inversion E; subst. exact (IH (S pos) Es).
Qed.

Lemma str_eqb_true (a b : str) : str_eqb a b = true -> a = b.
Proof.
  unfold str_eqb.
  destruct (List.list_eq_dec Z.eq_dec a b); [auto|discriminate].
Qed.

Lemma loop_body_raise (data : str) (fs fs' : files h) (e : exn) :
  loop_body h data fs = (Raise e, fs') ->
  (split_ws data = [] /\ e = unpack_error /\ fs' = fs) \/
  (exists path args e0,
     split_ws data = U "c" :: path :: args /\
     compile_kyc h path (U ".py") false fs = (Raise e0, fs') /\
     encode_utf8 (exn_str e0) = Raise e /\
     exn_class e = UnicodeEncodeError).
Proof.
  unfold loop_body. destruct (split_ws data) as [|command args].
  - intros E. inversion E. left. auto.
  - destruct (str_eqb command (U "c")) eqn:Ec; [|discriminate].
    apply str_eqb_true in Ec. subst command.
    destruct args as [|path args]; cbn [first_item].
    + discriminate.
    + destruct (compile_kyc h path (U ".py") false fs) as [[b|e0] fs1]
        eqn:Ek; [discriminate|].
      destruct (encode_utf8 (exn_str e0)) as [msg|e1] eqn:Em; cbn [bind];
        [discriminate|].
      intros E. inversion E; subst. right. exists path, args, e0.
      split; [reflexivity|]. split; [exact Ek|]. split; [exact Em|].
      exact (encode_from_raise 0 _ _ Em).
Qed.

Lemma script_daemon (prog : str) (more stdin : list str) (fs : files h) :
  script h (prog :: U "--daemon" :: more) stdin fs = daemonise h stdin fs.
Proof. reflexivity. Qed.
End Runs.

(** X22.  Started with [--daemon], the program first prints the
    information line, the debug line and the ready line [r], then at most
    one line for each line read: exactly one for each of them as long as
    the loop has not been ended by an exception. *)
Theorem daemon_one_response_per_request (h : host) (prog : str)
    (more stdin : list str) (fs : files h) :
  exists responses,
    fst (fst (script h (prog :: U "--daemon" :: more) stdin fs)) =
      send_info h :: U "# kyc will be compiled with version 1" :: U "r" ::
      responses /\
    (List.length responses <= List.length stdin)%nat /\
    (snd (fst (script h (prog :: U "--daemon" :: more) stdin fs)) = None <->
     List.length responses = List.length stdin).
Proof.
  rewrite script_daemon. unfold daemonise.
  pose proof (loop_count h stdin fs) as Hc.
  destruct (loop h stdin fs) as [[out e] fs']. cbn [fst snd] in *.
  exists out. split; [reflexivity|exact Hc].
Qed.

(** X23.  From the moment a request line has been read up to the printing
    of the response, two exceptions only leave the body of the loop: the
    [ValueError] of the unpacking, for a line without words, and the
    [UnicodeEncodeError] that the handler itself raises when the message of
    the exception caught from [compile_kyc] cannot be encoded in UTF-8.  No
    exception raised by [compile_kyc] or by [args[0]] leaves it.  (What the
    reading of the line and the printing may raise is not part of the
    statement.) *)
Theorem request_handling_exceptions (h : host) (data : str)
    (fs fs' : files h) (e : exn) :
  loop_body h data fs = (Raise e, fs') ->
  (split_ws data = [] /\ e = unpack_error /\ fs' = fs) \/
  (exists path args e0,
     split_ws data = U "c" :: path :: args /\
     compile_kyc h path (U ".py") false fs = (Raise e0, fs') /\
     encode_utf8 (exn_str e0) = Raise e /\
     exn_class e = UnicodeEncodeError).
Proof. apply loop_body_raise. Qed.

Lemma request_handling_exceptions_witness :
  (split_ws (U "c dir/foo.py" ++ newline) = [] /\
   surrogate_error 16 [56575] = unpack_error /\
   toy_files = toy_files) \/
  (exists path args e0,
     split_ws (U "c dir/foo.py" ++ newline) = U "c" :: path :: args /\
     compile_kyc garbling path (U ".py") false toy_files =
       (Raise e0, toy_files) /\
     encode_utf8 (exn_str e0) = Raise (surrogate_error 16 [56575]) /\
     exn_class (surrogate_error 16 [56575]) = UnicodeEncodeError).
Proof.
  apply (request_handling_exceptions garbling (U "c dir/foo.py" ++ newline)
           toy_files toy_files).
  reflexivity.
Defined.

(** *** The one-shot mode *)

Lemma py_file_is_not_the_flag (h : host) (path stem : str) :
  basename h path = stem ++ U ".py" -> str_eqb path (U "--daemon") = false.
Proof.
  intros Hb. apply str_eqb_neq. intros E. subst path.
  assert (Hd : basename h (U "--daemon") = U "--daemon").
  { unfold basename, path_sep. destruct (windows h); reflexivity. }
  rewrite Hd in Hb. apply (f_equal (@List.rev Z)) in Hb.
  rewrite List.rev_app_distr in Hb. discriminate Hb.
Qed.

(** X24.  Started with a path whose last component ends in [.py], the
    program prints one line when it ends without an exception: the
    hexadecimal form of the bytes that [compile_kyc] returned, which are the
    bytes it has written to the file named after that component with
    [.kyc] for [.py], in the directory part of the path, or in ["."] when
    that part is empty (a bare file name, or a file directly under the
    root).  The standard input and further arguments are not looked at. *)
Theorem one_shot_prints_what_it_writes (h : host) (prog path stem : str)
    (more stdin out : list str) (fs fs' : files h) :
  basename h path = stem ++ U ".py" ->
  script h (prog :: path :: more) stdin fs = (out, None, fs') ->
  exists b,
    out = [hex b] /\
    compile_kyc h path (U ".py") false fs = (Ok b, fs') /\
    write_bytes h fs
      (directory_or_dot (dirname h path) ++ path_sep h ++ stem ++ U ".kyc")
      b =
    (Ok tt, fs').
Proof.
  intros Hb. unfold script. cbn [List.nth_error].
  rewrite (py_file_is_not_the_flag h path stem Hb).
  unfold main. cbn [List.nth_error].
  destruct (compile_kyc h path (U ".py") false fs) as [[b|e] fs1] eqn:E;
    [|discriminate].
  intros R. inversion R; subst. exists b.
  split; [reflexivity|]. split; [reflexivity|].
  destruct (path_views h path) as (parts & S1 & L1 & J1).
  rewrite Hb in L1.
  assert (He : U ".py" <> []) by discriminate.
  destruct (split_last_occurrence stem (U ".py") [] He eq_refl
              (contains_nil _ He)) as (pieces & S2 & _ & J2).
  rewrite List.app_nil_r in S2.
  exact (compile_kyc_target h _ _ _ _ stem parts pieces false fs fs' b
           S1 L1 J1 S2 J2 E).
Qed.

Lemma one_shot_prints_what_it_writes_witness :
  exists out fs',
    script toy [U "kyc.py"; U "/foo.py"] [] [(U "/foo.py", [])] =
      (out, None, fs') /\
    exists b,
      out = [hex b] /\
      compile_kyc toy (U "/foo.py") (U ".py") false [(U "/foo.py", [])] =
        (Ok b, fs') /\
      write_bytes toy [(U "/foo.py", [])] (U "./foo.kyc") b = (Ok tt, fs').
Proof.
  eexists. eexists. split; [vm_compute; reflexivity|].
  apply (one_shot_prints_what_it_writes toy (U "kyc.py") (U "/foo.py")
           (U "foo") [] []).
  - reflexivity.
  - vm_compute. reflexivity.
Defined.

End KycExtra.
